(** * docmost-mcp: the ProseMirror-to-Markdown converter

    A shallow embedding of [convertProseMirrorToMarkdown] and of the
    placeholder resolution of [getPage], over a model of the JavaScript
    values a parsed JSON document is made of; with them the response filters
    of lib/filters.ts, what [getPage] returns and the loop of [paginateAll].

    Conventions of the embedding:
    - a JavaScript string is the [string] of its UTF-8 bytes;
    - a Number is an integer [Z] (heading levels, list positions); numbers
      with a fraction are not part of the model;
    - an object is the list of its fields, read by key;
    - an exception is the [Throw] outcome of the [result] monad;
    - the limits of the engine (the length of a string, the depth of the
      call stack) are not part of the model: a statement that the code
      returns is made for heading levels up to 6, attributes that are
      primitive values and trees nested no deeper than [nesting_limit];
    - the two library primitives whose definition is the Unicode or the
      numeric-literal tables of the language ([toUpperCase], [StringToNumber])
      are Section variables: every theorem holds whatever they compute.

    The definitions come first, in the order of the source; the lemmas and
    the theorems on the specification follow, and the file ends with the
    theorems applied to sample documents. *)

From Stdlib Require Import String Ascii List ZArith Bool Lia DecimalString.
Import ListNotations.

Open Scope list_scope.
Open Scope string_scope.

(** ** Values and outcomes *)

#[local] Set Warnings "-register-all".

Inductive value : Type :=
| VUndefined
| VNull
| VBool (b : bool)
| VNum (n : Z)
| VStr (s : string)
| VArr (elems : list value)
| VObj (fields : list (string * value)).

Inductive error : Type := TypeError | RangeError.

Inductive result (A : Type) : Type :=
| Ok (a : A)
| Throw (e : error).

Arguments Ok {A} a.
Arguments Throw {A} e.

Definition bind {A B : Type} (r : result A) (k : A -> result B) : result B :=
  match r with
  | Ok a => k a
  | Throw e => Throw e
  end.

Notation "'let*' x ':=' r 'in' k" := (bind r (fun x => k))
  (at level 10, x name, r at level 100, k at level 200).

(** ** Strings *)

(** The two characters a literal cannot hold. *)
Definition nl : string := String "010" "".
Definition dquote : string := String "034" "".

(** [Number::toString] of an integer, in decimal digits (the exponent form
    of the numbers from 10^21 on is not modelled). *)
Definition number_toString (n : Z) : string :=
  NilZero.string_of_int (Z.to_int n).

(** [ToString]; an element of an array that is undefined or null prints as
    the empty string in [Array.prototype.join], which an array's own
    [toString] calls with a comma. An object prints as a plain object does
    (one that carries a [toString] field of its own is not modelled). *)
Fixpoint toString (v : value) : string :=
  match v with
  | VUndefined => "undefined"
  | VNull => "null"
  | VBool true => "true"
  | VBool false => "false"
  | VNum n => number_toString n
  | VStr s => s
  | VArr l =>
      String.concat ","
        (map (fun x => match x with
                       | VUndefined | VNull => ""
                       | _ => toString x
                       end) l)
  | VObj _ => "[object Object]"
  end.

Definition join_element (v : value) : string :=
  match v with
  | VUndefined | VNull => ""
  | _ => toString v
  end.

(** [arr.join(sep)] *)
Definition join (sep : string) (arr : list value) : string :=
  String.concat sep (map join_element arr).

(** [ToBoolean] *)
Definition truthy (v : value) : bool :=
  match v with
  | VUndefined | VNull => false
  | VBool b => b
  | VNum n => negb (n =? 0)%Z
  | VStr s => negb (s =? "")
  | VArr _ | VObj _ => true
  end.

(** [a || b] *)
Definition orElse (a b : value) : value := if truthy a then a else b.

(** [v === "lit"] *)
Definition is_str (v : value) (lit : string) : bool :=
  match v with
  | VStr s => s =? lit
  | _ => false
  end.

Notation "v === lit" := (is_str v lit) (at level 70, no associativity).

(** ** Property access

    The converter reads the keys type, content, attrs, marks, text and the
    attribute names; none of them is a property of [String.prototype],
    [Array.prototype], [Number.prototype], [Boolean.prototype] or
    [Object.prototype], so only an object's own fields can answer. *)

Fixpoint lookup (key : string) (fields : list (string * value)) : value :=
  match fields with
  | [] => VUndefined
  | (k, v) :: fields' => if key =? k then v else lookup key fields'
  end.

(** [o.key] for an [o] that is neither undefined nor null. *)
Definition prop (o : value) (key : string) : value :=
  match o with
  | VObj fields => lookup key fields
  | _ => VUndefined
  end.

(** [o.key] *)
Definition get (o : value) (key : string) : result value :=
  match o with
  | VUndefined | VNull => Throw TypeError
  | _ => Ok (prop o key)
  end.

(** [o?.key] *)
Definition getOpt (o : value) (key : string) : value :=
  match o with
  | VUndefined | VNull => VUndefined
  | _ => prop o key
  end.

(** ** Arrays *)

(** [arr.map(cb)] on the elements of an array: [cb] receives the element and
    its index, the first exception ends the loop. *)
Definition mapM_index (cb : value -> nat -> result value)
  : nat -> list value -> result (list value) :=
  fix go (i : nat) (l : list value) : result (list value) :=
    match l with
    | [] => Ok []
    | x :: l' =>
        let* y := cb x i in
        let* ys := go (S i) l' in
        Ok (y :: ys)
    end.

(** [arr.map(cb)] for a callback that cannot throw. *)
Fixpoint map_index {A B : Type} (cb : A -> nat -> B) (i : nat) (l : list A)
  : list B :=
  match l with
  | [] => []
  | x :: l' => cb x i :: map_index cb (S i) l'
  end.

(** [arr.map(cb)]: a value that is not an array has no callable [map]. *)
Definition array_map (cb : value -> nat -> result value) (arr : value)
  : result (list value) :=
  match arr with
  | VArr l => mapM_index cb 0 l
  | _ => Throw TypeError
  end.

(** [(node.content || []).map(cb)], written by recursion on the fields of
    [node] so that a recursive [cb] is applied to a part of [node];
    [content_map_eq] below states it in the words of the source. *)
Definition content_map (cb : value -> nat -> result value) (node : value)
  : result (list value) :=
  match node with
  | VUndefined | VNull => Throw TypeError
  | VObj fields =>
      (fix own (fs : list (string * value)) : result (list value) :=
         match fs with
         | [] => Ok []
         | (k, c) :: fs' =>
             if "content" =? k then
               match c with
               | VArr l => mapM_index cb 0 l
               | _ => if truthy c then Throw TypeError else Ok []
               end
             else own fs'
         end) fields
  | _ => Ok []
  end.

(** ** String primitives *)

Fixpoint bytes (codes : list nat) : string :=
  match codes with
  | [] => ""
  | c :: codes' => String (ascii_of_nat c) (bytes codes')
  end.

(** The code points of WhiteSpace and LineTerminator, which [trim] removes,
    in UTF-8: U+0009 to U+000D, U+0020, U+00A0, U+1680, U+2000 to U+200A,
    U+2028, U+2029, U+202F, U+205F, U+3000 and U+FEFF. *)
Definition whiteSpace : list string :=
  map bytes
    [ [9]; [10]; [11]; [12]; [13]; [32]; [194; 160]; [225; 154; 128];
      [226; 128; 128]; [226; 128; 129]; [226; 128; 130]; [226; 128; 131];
      [226; 128; 132]; [226; 128; 133]; [226; 128; 134]; [226; 128; 135];
      [226; 128; 136]; [226; 128; 137]; [226; 128; 138];
      [226; 128; 168]; [226; 128; 169]; [226; 128; 175]; [226; 129; 159];
      [227; 128; 128]; [239; 187; 191] ].

(** [s] without its prefix [p], when it has it. *)
Fixpoint strip_prefix (p s : string) : option string :=
  match p, s with
  | EmptyString, _ => Some s
  | String a p', String b s' => if Ascii.eqb a b then strip_prefix p' s' else None
  | String _ _, EmptyString => None
  end.

Definition startsWith (s p : string) : bool :=
  match strip_prefix p s with
  | Some _ => true
  | None => false
  end.

Fixpoint string_rev (s : string) : string :=
  match s with
  | EmptyString => EmptyString
  | String a s' => string_rev s' ++ String a EmptyString
  end.

Definition endsWith (s p : string) : bool :=
  startsWith (string_rev s) (string_rev p).

(** [s] without one leading character of [ws], when it starts with one. *)
Fixpoint strip_one (ws : list string) (s : string) : option string :=
  match ws with
  | [] => None
  | w :: ws' =>
      match strip_prefix w s with
      | Some s' => Some s'
      | None => strip_one ws' s
      end
  end.

Fixpoint strip_all (ws : list string) (fuel : nat) (s : string) : string :=
  match fuel with
  | O => s
  | S fuel' =>
      match strip_one ws s with
      | Some s' => strip_all ws fuel' s'
      | None => s
      end
  end.

Definition trimStart (s : string) : string :=
  strip_all whiteSpace (String.length s) s.

Definition trimEnd (s : string) : string :=
  string_rev
    (strip_all (map string_rev whiteSpace) (String.length s) (string_rev s)).

(** [s.trim()] *)
Definition trim (s : string) : string := trimEnd (trimStart s).

(** A run of WhiteSpace and LineTerminator characters, and nothing else. *)
Definition whiteSpace_run (s : string) : Prop :=
  exists l, Forall (fun w => In w whiteSpace) l /\ s = String.concat "" l.

Fixpoint repeat_string (s : string) (n : nat) : string :=
  match n with
  | O => ""
  | S n' => s ++ repeat_string s n'
  end.

(** [s.replace(/\n/g, by)]; [by] holds no dollar sign at its one use. *)
Fixpoint replace_newlines (s by_ : string) : string :=
  match s with
  | EmptyString => EmptyString
  | String c s' =>
      if Ascii.eqb c "010" then by_ ++ replace_newlines s' by_
      else String c (replace_newlines s' by_)
  end.

(** The result of [ToIntegerOrInfinity]. *)
Inductive integerOrInfinity : Type :=
| Finite (n : Z)
| PlusInfinity
| MinusInfinity.

(** ** The converter *)

Section Converter.

(** [String.prototype.toUpperCase], the case mapping of Unicode. *)
Variable toUpperCase : string -> string.

(** [ToIntegerOrInfinity] of [StringToNumber], the value of a numeric
    literal written in a string. *)
Variable stringToIntegerOrInfinity : string -> integerOrInfinity.

(** [ToIntegerOrInfinity(count)]; an array is converted through its
    [toString], an object prints as a string that is no numeric literal. *)
Definition toIntegerOrInfinity (count : value) : integerOrInfinity :=
  match count with
  | VUndefined | VNull | VObj _ => Finite 0
  | VBool b => Finite (if b then 1 else 0)
  | VNum n => Finite n
  | VStr _ | VArr _ => stringToIntegerOrInfinity (toString count)
  end.

(** [s.repeat(count)], whatever the length of the result (the engine's
    limit on the length of a string is not modelled). *)
Definition string_repeat (s : string) (count : value) : result string :=
  match toIntegerOrInfinity count with
  | Finite n =>
      if (n <? 0)%Z then Throw RangeError
      else Ok (repeat_string s (Z.to_nat n))
  | PlusInfinity | MinusInfinity => Throw RangeError
  end.

(** [v.toUpperCase()]: only a string has the method. *)
Definition value_toUpperCase (v : value) : result string :=
  match v with
  | VStr s => Ok (toUpperCase s)
  | _ => Throw TypeError
  end.

(** [v.trim()]: only a string has the method. *)
Definition value_trim (v : value) : result string :=
  match v with
  | VStr s => Ok (trim s)
  | _ => Throw TypeError
  end.

(** *** Marks *)

(** The body of the loop over [node.marks]: the switch on [mark.type],
    from [textContent] to its next value. *)
Definition applyMark (textContent mark : value) : result value :=
  let* type := get mark "type" in
  let attrs := prop mark "attrs" in
  let t := toString textContent in
  if type === "bold" then Ok (VStr ("**" ++ t ++ "**"))
  else if type === "italic" then Ok (VStr ("*" ++ t ++ "*"))
  else if type === "code" then Ok (VStr ("`" ++ t ++ "`"))
  else if type === "link" then
    let href := orElse (getOpt attrs "href") (VStr "") in
    Ok (VStr ("[" ++ t ++ "](" ++ toString href ++ ")"))
  else if type === "strike" then Ok (VStr ("~~" ++ t ++ "~~"))
  else if type === "underline" then Ok (VStr ("<u>" ++ t ++ "</u>"))
  else if type === "subscript" then Ok (VStr ("<sub>" ++ t ++ "</sub>"))
  else if type === "superscript" then Ok (VStr ("<sup>" ++ t ++ "</sup>"))
  else if type === "highlight" then
    let color := orElse (getOpt attrs "color") (VStr "yellow") in
    Ok (VStr ("<mark style=" ++ dquote ++ "background-color: "
              ++ toString color ++ dquote ++ ">" ++ t ++ "</mark>"))
  else if type === "textStyle" then
    if truthy (getOpt attrs "color") then
      let* color := get attrs "color" in
      Ok (VStr ("<span style=" ++ dquote ++ "color: " ++ toString color
                ++ dquote ++ ">" ++ t ++ "</span>"))
    else Ok textContent
  else Ok textContent.

(** What [for (const mark of marks)] visits: the elements of an array, the
    characters of a string (each a primitive string, which the loop body
    leaves the text unchanged for; the model visits the bytes); anything else
    is not iterable. *)
Definition iterate (marks : value) : result (list value) :=
  match marks with
  | VArr l => Ok l
  | VStr s => Ok (map (fun c => VStr (String c "")) (list_ascii_of_string s))
  | _ => Throw TypeError
  end.

(** The loop: each mark re-wraps the current [textContent]. *)
Fixpoint applyMarks (textContent : value) (marks : list value)
  : result value :=
  match marks with
  | [] => Ok textContent
  | mark :: marks' =>
      let* textContent' := applyMark textContent mark in
      applyMarks textContent' marks'
  end.

(** *** The rules, over the recursive calls they make *)

Definition processListItemF (processNode : value -> result value)
    (item : value) (prefix : string) : result value :=
  let* lines := content_map (fun n _ => processNode n) item in
  Ok (VStr (String.concat nl
              (map_index
                 (fun line i =>
                    if (i =? 0)%nat then prefix ++ " " ++ toString line
                    else "  " ++ toString line)
                 0 lines))).

Definition processTaskItemF (processNode : value -> result value)
    (item : value) : result value :=
  let* attrs := get item "attrs" in
  let checked := orElse (getOpt attrs "checked") (VBool false) in
  let checkbox := if truthy checked then "[x]" else "[ ]" in
  let* parts := content_map (fun n _ => processNode n) item in
  let text := join "" parts in
  Ok (VStr ("- " ++ checkbox ++ " " ++ text)).

Definition processNodeF
    (processNode : value -> result value)
    (processListItem : value -> string -> result value)
    (processTaskItem : value -> result value)
    (node : value) : result value :=
  let* type := get node "type" in
  let children := content_map (fun n _ => processNode n) node in
  let attr := getOpt (prop node "attrs") in
  if type === "doc" then
    let* parts := children in Ok (VStr (join (nl ++ nl) parts))
  else if type === "paragraph" then
    let* parts := children in
    let text := join "" parts in
    let align := attr "textAlign" in
    if truthy align && negb (align === "left") then
      Ok (VStr ("<div align=" ++ dquote ++ toString align ++ dquote ++ ">"
                ++ text ++ "</div>"))
    else Ok (orElse (VStr text) (VStr ""))
  else if type === "heading" then
    let level := orElse (attr "level") (VNum 1) in
    let* parts := children in
    let headingText := join "" parts in
    let* hashes := string_repeat "#" level in
    Ok (VStr (hashes ++ " " ++ headingText))
  else if type === "text" then
    let textContent := orElse (prop node "text") (VStr "") in
    let marks := prop node "marks" in
    if truthy marks then
      let* marks := iterate marks in applyMarks textContent marks
    else Ok textContent
  else if type === "codeBlock" then
    let language := orElse (attr "language") (VStr "") in
    let* parts := children in
    let code := join "" parts in
    Ok (VStr ("```" ++ toString language ++ nl ++ code ++ nl ++ "```"))
  else if type === "bulletList" then
    let* items := content_map (fun item _ => processListItem item "-") node in
    Ok (VStr (join nl items))
  else if type === "orderedList" then
    let* items :=
      content_map
        (fun item index =>
           processListItem item
             (number_toString (Z.of_nat index + 1) ++ "."))
        node in
    Ok (VStr (join nl items))
  else if type === "taskList" then
    let* items := content_map (fun item _ => processTaskItem item) node in
    Ok (VStr (join nl items))
  else if type === "taskItem" then
    let checked := orElse (attr "checked") (VBool false) in
    let checkbox := if truthy checked then "[x]" else "[ ]" in
    let* parts := children in
    Ok (VStr ("- " ++ checkbox ++ " " ++ join nl parts))
  else if type === "listItem" then
    let* parts := children in Ok (VStr (join nl parts))
  else if type === "blockquote" then
    let* quoted :=
      content_map
        (fun n _ => let* r := processNode n in Ok (VStr ("> " ++ toString r)))
        node in
    Ok (VStr (join nl quoted))
  else if type === "horizontalRule" then Ok (VStr "---")
  else if type === "hardBreak" then Ok (VStr nl)
  else if type === "image" then
    let imgAlt := orElse (attr "alt") (VStr "") in
    let imgSrc := orElse (attr "src") (VStr "") in
    let imgCaption := orElse (attr "caption") (VStr "") in
    Ok (VStr ("![" ++ toString imgAlt ++ "](" ++ toString imgSrc ++ ")"
              ++ (if truthy imgCaption
                  then nl ++ "*" ++ toString imgCaption ++ "*"
                  else "")))
  else if type === "video" then
    let videoSrc := orElse (attr "src") (VStr "") in
    Ok (VStr ("ðŸŽ¥ [Video](" ++ toString videoSrc ++ ")"))
  else if type === "youtube" then
    let youtubeUrl := orElse (attr "src") (VStr "") in
    Ok (VStr ("ðŸ“º [YouTube Video](" ++ toString youtubeUrl ++ ")"))
  else if type === "table" then
    let* parts := children in Ok (VStr (join nl parts))
  else if type === "tableRow" then
    let* parts := children in
    Ok (VStr ("| " ++ join " | " parts ++ " |"))
  else if (type === "tableCell") || (type === "tableHeader") then
    let* parts := children in Ok (VStr (join "" parts))
  else if type === "callout" then
    let calloutType := orElse (attr "type") (VStr "info") in
    let* parts := children in
    let calloutContent := join nl parts in
    let* label := value_toUpperCase calloutType in
    Ok (VStr ("> **" ++ label ++ "**" ++ nl ++ "> "
              ++ replace_newlines calloutContent (nl ++ "> ")))
  else if type === "details" then
    let* parts := children in Ok (VStr (join nl parts))
  else if type === "detailsSummary" then
    let* parts := children in
    let summaryText := join "" parts in
    Ok (VStr ("<details>" ++ nl ++ "<summary>" ++ summaryText
              ++ "</summary>" ++ nl))
  else if type === "detailsContent" then
    let* parts := children in
    let detailsText := join nl parts in
    Ok (VStr (detailsText ++ nl ++ "</details>"))
  else if type === "mathInline" then
    let inlineMath := orElse (attr "latex") (VStr "") in
    Ok (VStr ("$" ++ toString inlineMath ++ "$"))
  else if type === "mathBlock" then
    let blockMath := orElse (attr "latex") (VStr "") in
    Ok (VStr ("$$" ++ nl ++ toString blockMath ++ nl ++ "$$"))
  else if type === "mention" then
    let mentionLabel :=
      orElse (orElse (attr "label") (attr "id")) (VStr "") in
    Ok (VStr ("@" ++ toString mentionLabel))
  else if type === "attachment" then
    let attachmentName := orElse (attr "fileName") (VStr "attachment") in
    let attachmentUrl := orElse (attr "src") (VStr "") in
    Ok (VStr ("ðŸ“Ž [" ++ toString attachmentName ++ "]("
              ++ toString attachmentUrl ++ ")"))
  else if type === "drawio" then Ok (VStr "ðŸ“Š [Draw.io Diagram]")
  else if type === "excalidraw" then
    Ok (VStr "âœï¸ [Excalidraw Drawing]")
  else if type === "embed" then
    let embedUrl := orElse (attr "src") (VStr "") in
    Ok (VStr ("ðŸ”— [Embedded Content](" ++ toString embedUrl ++ ")"))
  else if type === "subpages" then Ok (VStr "ðŸ“‘ [Subpages List]")
  else
    let* parts := children in Ok (VStr (join "" parts)).

(** The three closures of the source, tied together. *)
Fixpoint processNode (node : value) {struct node} : result value :=
  processNodeF processNode processListItem processTaskItem node
with processListItem (item : value) (prefix : string) {struct item}
  : result value :=
  processListItemF processNode item prefix
with processTaskItem (item : value) {struct item} : result value :=
  processTaskItemF processNode item.

Definition convertProseMirrorToMarkdown (content : value) : result string :=
  if negb (truthy content) || negb (truthy (prop content "content"))
  then Ok ""
  else
    let* rendered := processNode content in
    value_trim rendered.

(** ** The caller: placeholder resolution in [getPage] *)

(** [s.includes(search)] *)
Fixpoint includes (s search : string) : bool :=
  startsWith s search
  || match s with
     | EmptyString => false
     | String _ s' => includes s' search
     end.

(** The text before and after the first occurrence of [search] in [s]. *)
Fixpoint split_first (s search : string) : option (string * string) :=
  match strip_prefix search s with
  | Some rest => Some ("", rest)
  | None =>
      match s with
      | EmptyString => None
      | String c s' =>
          match split_first s' search with
          | Some (before, rest) => Some (String c before, rest)
          | None => None
          end
      end
  end.

(** [GetSubstitution] for a search string, which captures nothing: the
    dollar patterns of the replacement text. *)
Fixpoint getSubstitution (matched before rest template : string) : string :=
  match template with
  | EmptyString => EmptyString
  | String "$" (String "$" t) =>
      "$" ++ getSubstitution matched before rest t
  | String "$" (String "&" t) =>
      matched ++ getSubstitution matched before rest t
  | String "$" (String "`" t) =>
      before ++ getSubstitution matched before rest t
  | String "$" (String "'" t) =>
      rest ++ getSubstitution matched before rest t
  | String c t => String c (getSubstitution matched before rest t)
  end.

(** [s.replace(search, replacement)] for a search string: the first
    occurrence only. *)
Definition replace (s search replacement : string) : string :=
  match split_first s search with
  | Some (before, rest) =>
      before ++ getSubstitution search before rest replacement ++ rest
  | None => s
  end.

(** [arr.map(cb)] where [cb] ignores the index. *)
Fixpoint mapM (cb : value -> result value) (l : list value)
  : result (list value) :=
  match l with
  | [] => Ok []
  | x :: l' =>
      let* y := cb x in
      let* ys := mapM cb l' in
      Ok (y :: ys)
  end.

(** The lines of [getPage] between the conversion and the return:
    [content] is the converter's output, [subpages] the fetched child
    pages. *)
Definition getPage_resolveSubpages (content : string) (subpages : list value)
  : result string :=
  if negb (content =? "") && includes content "{{SUBPAGES}}" then
    if (0 <? List.length subpages)%nat then
      let* entries :=
        mapM (fun p =>
                let* title := get p "title" in
                let* id := get p "id" in
                Ok (VStr ("- [" ++ toString title ++ "](page:"
                          ++ toString id ++ ")")))
             subpages in
      let list := join nl entries in
      Ok (replace content "{{SUBPAGES}}" ("### Subpages" ++ nl ++ list))
    else Ok (replace content "{{SUBPAGES}}" "")
  else Ok content.

(** ** Well-formed document trees

    The data model of the editor: a node is a record whose [content] is
    absent or a sequence of nodes, whose [marks] is absent or a sequence of
    records, whose [text] is absent or a string, and whose [attrs], like the
    [attrs] of a mark, are absent or a record of primitive values, with a
    heading level that is absent or a number from 0 to 6 and a callout type
    that is absent or a string.

    The converter guards neither the depth of its recursion nor the length
    of the strings it builds, and the embedding has no call stack to
    exhaust: a tree that is to be converted is also nested no deeper than
    [nesting_limit], arrays and objects counted alike. *)

Definition absent (v : value) : bool :=
  match v with
  | VUndefined | VNull => true
  | _ => false
  end.













(** The lines of a text, the newline being the separator. *)
Fixpoint lines (s : string) : list string :=
  match s with
  | EmptyString => [EmptyString]
  | String c s' =>
      if Ascii.eqb c "010" then EmptyString :: lines s'
      else match lines s' with
           | [] => [String c EmptyString]
           | l :: ls => String c l :: ls
           end
  end.

(** ** Sample documents *)

Definition text (t : string) : value :=
  VObj [("type", VStr "text"); ("text", VStr t)].

Definition marked (t : string) (marks : list value) : value :=
  VObj [("type", VStr "text"); ("text", VStr t); ("marks", VArr marks)].

Definition mark (kind : string) : value := VObj [("type", VStr kind)].

Definition element (type : string) (content : list value) : value :=
  VObj [("type", VStr type); ("content", VArr content)].

Definition element_with (type : string) (attrs : list (string * value))
    (content : list value) : value :=
  VObj [("type", VStr type); ("attrs", VObj attrs); ("content", VArr content)].

(** ** The mark table of the specification

    Section 4.2 of the specification gives each recognized kind its
    wrapping; a kind it does not name wraps with nothing. [applyMark_wrap]
    compares the table with the switch of the source. *)

Definition spec_delimiters (mark : value) : string * string :=
  let type := prop mark "type" in
  let attrs := prop mark "attrs" in
  if type === "bold" then ("**", "**")
  else if type === "italic" then ("*", "*")
  else if type === "code" then ("`", "`")
  else if type === "link" then
    ("[", "](" ++ toString (orElse (getOpt attrs "href") (VStr "")) ++ ")")
  else if type === "strike" then ("~~", "~~")
  else if type === "underline" then ("<u>", "</u>")
  else if type === "subscript" then ("<sub>", "</sub>")
  else if type === "superscript" then ("<sup>", "</sup>")
  else if type === "highlight" then
    ("<mark style=" ++ dquote ++ "background-color: "
     ++ toString (orElse (getOpt attrs "color") (VStr "yellow"))
     ++ dquote ++ ">",
     "</mark>")
  else if type === "textStyle" then
    if truthy (getOpt attrs "color") then
      ("<span style=" ++ dquote ++ "color: "
       ++ toString (getOpt attrs "color") ++ dquote ++ ">",
       "</span>")
    else ("", "")
  else ("", "").

(** One mark around the text so far. *)
Definition spec_wrap (t : string) (mark : value) : string :=
  fst (spec_delimiters mark) ++ t ++ snd (spec_delimiters mark).


(** [checked ? "[x]" : "[ ]"] for [checked = attrs?.checked || false]. *)
Definition checkbox_of (attrs : value) : string :=
  if truthy (orElse (getOpt attrs "checked") (VBool false))
  then "[x]" else "[ ]".

(** The line [processTaskItem] builds for an item with these [attrs] and
    these rendered children: the checkbox by the truthiness of
    [attrs.checked], then the children with nothing between them. *)
Definition task_line (attrs : value) (parts : list value) : string :=
  (if truthy (getOpt attrs "checked") then "- [x] " else "- [ ] ")
  ++ join "" parts.

(** The reading of the children every rule starts from:
    [nodeContent.map(processNode)]. *)
Definition children (node : value) : result (list value) :=
  content_map (fun n _ => processNode n) node.

(** ** Structurally identical trees

    Two values are the same tree when they are the same primitive, arrays of
    the same trees in the same order, or objects that answer every key with
    the same tree (the order in which the fields were written does not
    count). *)

Inductive same_tree : value -> value -> Prop :=
| same_undefined : same_tree VUndefined VUndefined
| same_null : same_tree VNull VNull
| same_bool (b : bool) : same_tree (VBool b) (VBool b)
| same_num (n : Z) : same_tree (VNum n) (VNum n)
| same_str (s : string) : same_tree (VStr s) (VStr s)
| same_arr (l1 l2 : list value) :
    Forall2 same_tree l1 l2 -> same_tree (VArr l1) (VArr l2)
| same_obj (fs1 fs2 : list (string * value)) :
    (forall key, same_tree (lookup key fs1) (lookup key fs2)) ->
    same_tree (VObj fs1) (VObj fs2).

(** Two outcomes are the same when they raise the same exception or return
    the same tree. *)
Definition same_result (r1 r2 : result value) : Prop :=
  match r1, r2 with
  | Ok v1, Ok v2 => same_tree v1 v2
  | Throw e1, Throw e2 => e1 = e2
  | _, _ => False
  end.

Definition same_results (r1 r2 : result (list value)) : Prop :=
  match r1, r2 with
  | Ok l1, Ok l2 => Forall2 same_tree l1 l2
  | Throw e1, Throw e2 => e1 = e2
  | _, _ => False
  end.

(** ** Marks and headings in a tree *)

(** The kinds the switch on [mark.type] names. *)
Definition mark_kinds : list string :=
  [ "bold"; "italic"; "code"; "link"; "strike"; "underline"; "subscript";
    "superscript"; "highlight"; "textStyle" ].

(** A mark the loop passes over: a value with a kind the switch does not
    name, or a textStyle without a color. *)
Definition passed_over (mark : value) : bool :=
  negb (absent mark)
  && (negb (existsb (is_str (prop mark "type")) mark_kinds)
      || ((prop mark "type" === "textStyle")
          && negb (truthy (getOpt (prop mark "attrs") "color")))).


(** [String.prototype.toUpperCase] on ASCII text, an instance of the Section
    variable to run examples with. *)
Definition toUpperCase_ascii (s : string) : string :=
  string_of_list_ascii
    (map (fun c =>
            let n := nat_of_ascii c in
            if (97 <=? n)%nat && (n <=? 122)%nat then ascii_of_nat (n - 32)
            else c)
       (list_ascii_of_string s)).

(** ** The filters of the API responses (lib/filters.ts) *)

(** The object literal [{ k: o.k, ... }] over the keys [keys]: reading the
    first key of an [o] that is undefined or null raises. *)
Definition fields_of (o : value) (keys : list string)
  : result (list (string * value)) :=
  if absent o then Throw TypeError
  else Ok (map (fun k => (k, prop o k)) keys).

Definition filterWorkspace (data : value) : result value :=
  let* fields :=
    fields_of data
      [ "id"; "name"; "description"; "defaultSpaceId"; "createdAt";
        "updatedAt"; "deletedAt" ] in
  Ok (VObj fields).

Definition filterSpace (space : value) : result value :=
  let* fields :=
    fields_of space
      [ "id"; "name"; "description"; "slug"; "visibility"; "createdAt";
        "updatedAt"; "deletedAt" ] in
  Ok (VObj fields).

Definition filterGroup (group : value) : result value :=
  let* fields :=
    fields_of group
      [ "id"; "name"; "description"; "workspaceId"; "createdAt"; "updatedAt";
        "deletedAt" ] in
  Ok (VObj fields).

Definition page_keys : list string :=
  [ "id"; "title"; "parentPageId"; "spaceId"; "isLocked"; "createdAt";
    "updatedAt"; "deletedAt" ].

(** [...(typeof content === "string" && { content })] *)
Definition content_field (content : value) : list (string * value) :=
  match content with
  | VStr _ => [("content", content)]
  | _ => []
  end.

(** [filterPage(page, content?, subpages?)]; an omitted [content] is
    [VUndefined], an omitted [subpages] is [None]. *)
Definition filterPage (page content : value) (subpages : option (list value))
  : result value :=
  let* fields := fields_of page page_keys in
  let* subpages_field :=
    match subpages with
    | Some (p :: ps) =>
        let* entries :=
          mapM (fun p =>
                  let* id := get p "id" in
                  let* title := get p "title" in
                  Ok (VObj [("id", id); ("title", title)]))
               (p :: ps) in
        Ok [("subpages", VArr entries)]
    | _ => Ok []
    end in
  Ok (VObj (fields ++ content_field content ++ subpages_field)%list).

Definition filterHistoryEntry (entry : value) : result value :=
  let* fields :=
    fields_of entry ["id"; "pageId"; "title"; "version"; "createdAt"] in
  let lastUpdatedBy :=
    orElse (getOpt (prop entry "lastUpdatedBy") "name")
      (prop entry "lastUpdatedById") in
  let* contributors :=
    if absent (prop entry "contributors") then Ok (VArr [])
    else
      let* names :=
        array_map (fun c _ => get c "name") (prop entry "contributors") in
      Ok (orElse (VArr names) (VArr [])) in
  Ok (VObj (fields ++ [("lastUpdatedBy", lastUpdatedBy);
                       ("contributors", contributors)])%list).

(** ** The client (index.ts) *)

(** [getPage] from the body of the answer to /pages/info on: [body] is
    [response.data], [fetched] the child pages [listSidebarPages] returned,
    [None] when it failed (the failure is caught and logged). *)
Definition getPage_result (body : value) (fetched : option (list value))
  : result value :=
  let* resultData := get body "data" in
  let* raw := get resultData "content" in
  let* content :=
    if truthy raw then convertProseMirrorToMarkdown raw else Ok "" in
  let subpages :=
    match fetched with
    | Some items => items
    | None => []
    end in
  let* content := getPage_resolveSubpages content subpages in
  let* data := filterPage resultData (VStr content) (Some subpages) in
  Ok (VObj [("data", data); ("success", prop body "success")]).

(** [Math.max(1, Math.min(100, limit))] *)
Definition clampLimit (limit : Z) : Z := Z.max 1 (Z.min 100 limit).

(** [allItems.concat(items)]: an array is spread, any other value is added
    as one element. *)
Definition array_concat (allItems : list value) (items : value) : list value :=
  match items with
  | VArr l => (allItems ++ l)%list
  | v => (allItems ++ [v])%list
  end.

(** [{ ...basePayload, limit: clampedLimit, page }] *)
Definition page_request (basePayload : list (string * value))
    (clampedLimit page : Z) : value :=
  VObj (("limit", VNum clampedLimit) :: ("page", VNum page) :: basePayload).

(** [data.data?.items || data.items || []] *)
Definition page_items (data : value) : result value :=
  let* inner := get data "data" in
  Ok (orElse (orElse (getOpt inner "items") (prop data "items")) (VArr [])).

(** [meta?.hasNextPage || false] for [meta = data.data?.meta || data.meta] *)
Definition page_hasNextPage (data : value) : result bool :=
  let* inner := get data "data" in
  let meta := orElse (getOpt inner "meta") (prop data "meta") in
  Ok (truthy (orElse (getOpt meta "hasNextPage") (VBool false))).

(** The loop of [paginateAll]. [post] answers a request with the body of the
    response or with the rejection of the request; the loop has no bound of
    its own, so the model counts its rounds and gives [None] when [fuel]
    rounds did not end it. *)
Fixpoint paginateAll_loop (post : value -> result value)
    (basePayload : list (string * value)) (clampedLimit : Z)
    (fuel : nat) (page : Z) (allItems : list value)
  : option (result (list value)) :=
  match fuel with
  | O => None
  | S fuel' =>
      match
        (let* data := post (page_request basePayload clampedLimit page) in
         let* items := page_items data in
         let* hasNextPage := page_hasNextPage data in
         Ok (array_concat allItems items, hasNextPage))
      with
      | Throw e => Some (Throw e)
      | Ok (allItems', true) =>
          paginateAll_loop post basePayload clampedLimit fuel' (page + 1)
            allItems'
      | Ok (allItems', false) => Some (Ok allItems')
      end
  end.

(** [paginateAll(endpoint, basePayload, limit)] for the requests of one
    endpoint; an omitted [limit] is 100. *)
Definition paginateAll (post : value -> result value)
    (basePayload : list (string * value)) (limit : option Z) (fuel : nat)
  : option (result (list value)) :=
  let limit := match limit with Some l => l | None => 100%Z end in
  paginateAll_loop post basePayload (clampLimit limit) fuel 1 [].

(** ** Induction on values *)

(** Induction over a value with the hypothesis available at every element of
    an array and at every field of an object. *)
Section ValueInd.
Variable P : value -> Prop.
Hypothesis Hundef : P VUndefined.
Hypothesis Hnull : P VNull.
Hypothesis Hbool : forall b, P (VBool b).
Hypothesis Hnum : forall n, P (VNum n).
Hypothesis Hstr : forall s, P (VStr s).
Hypothesis Harr : forall l, Forall P l -> P (VArr l).
Hypothesis Hobj : forall fs, Forall (fun kv => P (snd kv)) fs -> P (VObj fs).

Fixpoint value_ind_nested (v : value) : P v :=
  match v with
  | VUndefined => Hundef
  | VNull => Hnull
  | VBool b => Hbool b
  | VNum n => Hnum n
  | VStr s => Hstr s
  | VArr l =>
      Harr l ((fix all (l : list value) : Forall P l :=
                 match l with
                 | [] => Forall_nil _
                 | x :: l' => Forall_cons _ (value_ind_nested x) (all l')
                 end) l)
  | VObj fs =>
      Hobj fs ((fix all (fs : list (string * value))
                  : Forall (fun kv => P (snd kv)) fs :=
                  match fs with
                  | [] => Forall_nil _
                  | kv :: fs' =>
                      Forall_cons _ (value_ind_nested (snd kv)) (all fs')
                  end) fs)
  end.
End ValueInd.

(** ** The definitions in the words of the source *)

Lemma processNode_eq (node : value) :
  processNode node
  = processNodeF processNode processListItem processTaskItem node.
Proof. destruct node; reflexivity. Qed.

Lemma processListItem_eq (item : value) (prefix : string) :
  processListItem item prefix = processListItemF processNode item prefix.
Proof. destruct item; reflexivity. Qed.

Lemma processTaskItem_eq (item : value) :
  processTaskItem item = processTaskItemF processNode item.
Proof. destruct item; reflexivity. Qed.

(** [content_map] is [(node.content || []).map(cb)]. *)
Lemma content_map_eq (cb : value -> nat -> result value) (node : value) :
  content_map cb node
  = (let* content := get node "content" in
     array_map cb (orElse content (VArr []))).
Proof.
  destruct node as [| | b | n | s | l | fields]; try reflexivity.
  unfold get, prop, bind.
  induction fields as [|[k c] fields IH]; [reflexivity|].
  cbn [lookup].
  cbn [content_map] in *.
  destruct ("content" =? k) eqn:Hk; [|exact IH].
  destruct c as [| | [] | n | s | l | fs]; try reflexivity.
  - unfold orElse, truthy. destruct (n =? 0)%Z; reflexivity.
  - unfold orElse, truthy. destruct (s =? ""); reflexivity.
Qed.

(** ** Strings *)

Lemma append_nil_r (s : string) : s ++ "" = s.
Proof. induction s; cbn; congruence. Qed.

Lemma append_assoc (a b c : string) : (a ++ b) ++ c = a ++ b ++ c.
Proof. induction a; cbn; congruence. Qed.

(** ** Marks *)

Lemma get_present (o : value) (key : string) :
  absent o = false -> get o key = Ok (prop o key).
Proof. destruct o; cbn; congruence. Qed.

Lemma getOpt_present (o : value) (key : string) :
  absent o = false -> getOpt o key = prop o key.
Proof. destruct o; cbn; congruence. Qed.

Lemma get_truthy (o : value) (key : string) :
  truthy (getOpt o key) = true -> get o key = Ok (getOpt o key).
Proof. destruct o; cbn; congruence. Qed.

Lemma prop_present (o : value) (key : string) (s : string) :
  prop o key = VStr s -> absent o = false.
Proof. destruct o; cbn; congruence. Qed.

(** The switch of the source wraps as the table of the specification says. *)
Lemma applyMark_wrap (t : string) (mark : value) :
  absent mark = false ->
  applyMark (VStr t) mark = Ok (VStr (spec_wrap t mark)).
Proof.
  intros Hm. unfold applyMark, spec_wrap, spec_delimiters.
  rewrite (get_present _ _ Hm). cbn [bind toString].
  repeat match goal with
         | |- context [if ?b then _ else _] =>
             let E := fresh "E" in destruct b eqn:E
         end;
    cbn [fst snd];
    try match goal with
        | H : truthy (getOpt _ _) = true |- _ =>
            rewrite (get_truthy _ _ H); cbn [bind toString]
        end;
    rewrite ?append_assoc; try reflexivity;
    cbn; now rewrite append_nil_r.
Qed.

Lemma applyMarks_app (v : value) (ms1 ms2 : list value) :
  applyMarks v (ms1 ++ ms2)%list
  = (let* v' := applyMarks v ms1 in applyMarks v' ms2).
Proof.
  revert v. induction ms1 as [|m ms1 IH]; intros v; cbn; [reflexivity|].
  destruct (applyMark v m); cbn; [apply IH | reflexivity].
Qed.

Lemma applyMarks_fold (t : string) (ms : list value) :
  Forall (fun m => absent m = false) ms ->
  applyMarks (VStr t) ms = Ok (VStr (fold_left spec_wrap ms t)).
Proof.
  intros H. revert t. induction H as [|m ms Hm _ IH]; intros t; cbn.
  - reflexivity.
  - rewrite (applyMark_wrap _ _ Hm). cbn. apply IH.
Qed.

Lemma concat_nil_cons (a : string) (l : list string) :
  String.concat "" (a :: l) = a ++ String.concat "" l.
Proof. destruct l; cbn; [now rewrite append_nil_r | reflexivity]. Qed.

Lemma concat_nil_app (l1 l2 : list string) :
  String.concat "" (l1 ++ l2)%list = String.concat "" l1 ++ String.concat "" l2.
Proof.
  induction l1 as [|a l1 IH]; [reflexivity|].
  rewrite <- app_comm_cons, !concat_nil_cons, IH. now rewrite append_assoc.
Qed.

(** The nesting a left fold produces: the opening delimiters in reverse
    order, the text, the closing delimiters in order. *)
Lemma fold_wrap_nesting (ms : list value) (t : string) :
  fold_left spec_wrap ms t
  = String.concat "" (rev (map (fun m => fst (spec_delimiters m)) ms))
    ++ t
    ++ String.concat "" (map (fun m => snd (spec_delimiters m)) ms).
Proof.
  revert t. induction ms as [|m ms IH]; intros t.
  - cbn. now rewrite append_nil_r.
  - cbn [fold_left map rev]. rewrite IH. unfold spec_wrap.
    rewrite concat_nil_app, !concat_nil_cons. cbn [String.concat].
    rewrite append_nil_r, !append_assoc. reflexivity.
Qed.

(** ** The switch on [node.type] *)

(** Decide the comparisons of a known tag with the literals of the switch. *)
Ltac decide_cases :=
  repeat match goal with
         | |- context [VStr ?a === ?b] =>
             let r := eval vm_compute in (VStr a === b) in
             change (VStr a === b) with r
         end;
  cbv beta iota zeta.

(** Unfold [processNode] at a node whose tag is known. *)
Ltac enter_rule Htype :=
  rewrite processNode_eq; unfold processNodeF;
  rewrite (get_present _ _ (prop_present _ _ _ Htype)), Htype;
  cbn [bind]; decide_cases.

Lemma orElse_str (s : string) : orElse (VStr s) (VStr "") = VStr s.
Proof. destruct s; reflexivity. Qed.

Lemma processNode_text (node : value) (t : string) (ms : list value) :
  prop node "type" = VStr "text" ->
  prop node "text" = VStr t ->
  prop node "marks" = VArr ms ->
  processNode node = applyMarks (VStr t) ms.
Proof.
  intros Htype Htext Hmarks. enter_rule Htype.
  rewrite Htext, Hmarks, orElse_str. reflexivity.
Qed.

(** C2. A text leaf applies its marks as a left fold over the mark
    sequence: the loop of the source starts from the raw text and wraps the
    current string once per mark, in order, so the delimiters of mark 0 are
    innermost and those of the last mark outermost. With the marks bold then
    italic around the text t the output is "*" ++ "**" ++ t ++ "**" ++ "*";
    the nesting equation covers every sequence of marks, hence every
    permutation of recognized ones. *)
Theorem text_marks_left_fold (node : value) (t : string) (ms : list value) :
  prop node "type" = VStr "text" ->
  prop node "text" = VStr t ->
  prop node "marks" = VArr ms ->
  Forall (fun m => absent m = false) ms ->
  processNode node = Ok (VStr (fold_left spec_wrap ms t))
  /\ fold_left spec_wrap ms t
     = String.concat "" (rev (map (fun m => fst (spec_delimiters m)) ms))
       ++ t
       ++ String.concat "" (map (fun m => snd (spec_delimiters m)) ms)
  /\ (forall m, fold_left spec_wrap (ms ++ [m])%list t
                = spec_wrap (fold_left spec_wrap ms t) m)
  /\ (forall bold italic,
        ms = [bold; italic] ->
        prop bold "type" = VStr "bold" ->
        prop italic "type" = VStr "italic" ->
        processNode node = Ok (VStr ("*" ++ "**" ++ t ++ "**" ++ "*"))).
Proof.
  intros Htype Htext Hmarks Hms.
  assert (Hfold : processNode node = Ok (VStr (fold_left spec_wrap ms t))).
  { rewrite (processNode_text _ _ _ Htype Htext Hmarks).
    now apply applyMarks_fold. }
  split; [exact Hfold|]. split; [apply fold_wrap_nesting|].
  split; [intros m; apply fold_left_app|].
  intros bold italic -> Hb Hi. rewrite Hfold. cbn [fold_left].
  unfold spec_wrap, spec_delimiters. rewrite Hb, Hi. cbn.
  rewrite !append_assoc. reflexivity.
Qed.

(** ** The fallback rule *)


Lemma processNode_plain_text (x : string) :
  processNode (text x) = Ok (VStr x).
Proof.
  rewrite processNode_eq. unfold processNodeF, text. cbn.
  now rewrite orElse_str.
Qed.

(** ** Lengths and newlines *)

Lemma length_app (a b : string) :
  String.length (a ++ b) = (String.length a + String.length b)%nat.
Proof. induction a; cbn; congruence. Qed.

Lemma concat_cons2 (sep a b : string) (l : list string) :
  String.concat sep (a :: b :: l) = a ++ sep ++ String.concat sep (b :: l).
Proof. reflexivity. Qed.

(** Joining with a newline instead of nothing adds one character per gap. *)
Lemma length_concat_nl (a : string) (l : list string) :
  String.length (String.concat nl (a :: l))
  = (String.length (String.concat "" (a :: l)) + List.length l)%nat.
Proof.
  revert a. induction l as [|b l IH]; intros a.
  - cbn. lia.
  - rewrite !concat_cons2, !length_app, IH. cbn [String.length nl List.length].
    lia.
Qed.

Lemma includes_nl_cons (c : ascii) (s : string) :
  includes (String c s) nl = Ascii.eqb "010" c || includes s nl.
Proof.
  cbn [includes]. unfold startsWith, nl. cbn [strip_prefix].
  destruct (Ascii.eqb "010" c); reflexivity.
Qed.

Lemma includes_nl_app (a b : string) :
  includes (a ++ b) nl = includes a nl || includes b nl.
Proof.
  induction a as [|c a IH].
  - cbn [append]. destruct (includes b nl); reflexivity.
  - cbn [append]. rewrite !includes_nl_cons, IH. now rewrite orb_assoc.
Qed.

Lemma includes_nl_concat (l : list string) :
  Forall (fun s => includes s nl = false) l ->
  includes (String.concat "" l) nl = false.
Proof.
  induction 1 as [|a l Ha _ IH]; [reflexivity|].
  rewrite concat_nil_cons, includes_nl_app, Ha, IH. reflexivity.
Qed.

(** ** Task items *)

Lemma truthy_orElse_false (v : value) :
  truthy (orElse v (VBool false)) = truthy v.
Proof. unfold orElse. destruct (truthy v) eqn:E; [exact E | reflexivity]. Qed.

Lemma processTaskItem_rule (item attrs : value) (parts : list value) :
  get item "attrs" = Ok attrs ->
  children item = Ok parts ->
  processTaskItem item
  = Ok (VStr ("- " ++ checkbox_of attrs ++ " " ++ join "" parts)).
Proof.
  intros Ha Hc. rewrite processTaskItem_eq. unfold processTaskItemF.
  rewrite Ha. cbn [bind]. fold (children item). rewrite Hc. reflexivity.
Qed.

Lemma processNode_taskItem (item : value) (parts : list value) :
  prop item "type" = VStr "taskItem" ->
  children item = Ok parts ->
  processNode item
  = Ok (VStr ("- " ++ checkbox_of (prop item "attrs") ++ " " ++ join nl parts)).
Proof.
  intros Htype Hc. enter_rule Htype.
  fold (children item). rewrite Hc. reflexivity.
Qed.

(** ** Block quotes and list items *)

Lemma processNode_blockquote (node : value) :
  prop node "type" = VStr "blockquote" ->
  processNode node
  = (let* quoted :=
       content_map
         (fun n _ => let* r := processNode n in Ok (VStr ("> " ++ toString r)))
         node in
     Ok (VStr (join nl quoted))).
Proof. intros Htype. enter_rule Htype. reflexivity. Qed.

Lemma processListItem_rule (item : value) (prefix : string)
    (rendered : list value) :
  children item = Ok rendered ->
  processListItem item prefix
  = Ok (VStr (String.concat nl
                (map_index
                   (fun line i =>
                      if (i =? 0)%nat then prefix ++ " " ++ toString line
                      else "  " ++ toString line)
                   0 rendered))).
Proof.
  intros Hc. rewrite processListItem_eq. unfold processListItemF.
  fold (children item). rewrite Hc. reflexivity.
Qed.

(** C4, on the code. The blockquote rule puts the marker before each rendered
    child, not before each line: a paragraph that holds a hard break is one
    child of two lines, and its second line leaves the rule without the
    marker. *)
Theorem blockquote_marks_children_not_lines :
  let paragraph :=
    element "paragraph" [text "a"; element "hardBreak" []; text "b"] in
  processNode paragraph = Ok (VStr ("a" ++ nl ++ "b"))
  /\ processNode (element "blockquote" [paragraph])
     = Ok (VStr ("> a" ++ nl ++ "b"))
  /\ lines ("> a" ++ nl ++ "b") = ["> a"; "b"]
  /\ startsWith "b" "> " = false.
Proof. cbv zeta. repeat split; reflexivity. Qed.

Lemma map_index_later {A B : Type} (cb : A -> nat -> B) (g : A -> B)
    (i : nat) (l : list A) :
  (forall x j, cb x (S j) = g x) -> map_index cb (S i) l = map g l.
Proof.
  intros H. revert i. induction l as [|x l IH]; intros i; cbn;
    [reflexivity | now rewrite H, IH].
Qed.

Lemma processNode_bulletList (node : value) :
  prop node "type" = VStr "bulletList" ->
  processNode node
  = (let* items := content_map (fun item _ => processListItem item "-") node in
     Ok (VStr (join nl items))).
Proof. intros Htype. enter_rule Htype. reflexivity. Qed.

Lemma processNode_orderedList (node : value) :
  prop node "type" = VStr "orderedList" ->
  processNode node
  = (let* items :=
       content_map
         (fun item index =>
            processListItem item (number_toString (Z.of_nat index + 1) ++ "."))
         node in
     Ok (VStr (join nl items))).
Proof. intros Htype. enter_rule Htype. reflexivity. Qed.

(** The list rules: a bullet list renders each item with the marker "-", an
    ordered list with the 1-based position of the item and a dot, and joins
    the items with a newline. Within an item the marker and a space come
    before the first rendered child, and exactly two spaces before each
    later rendered child; the children are joined with a newline. *)
Lemma list_item_rendering (item : value) (prefix : string)
    (first : value) (rest : list value) :
  children item = Ok (first :: rest) ->
  processListItem item prefix
  = Ok (VStr (String.concat nl
                ((prefix ++ " " ++ toString first)
                 :: map (fun child => "  " ++ toString child) rest)))
  /\ (forall list, prop list "type" = VStr "bulletList" ->
        processNode list
        = (let* items :=
             content_map (fun item _ => processListItem item "-") list in
           Ok (VStr (join nl items))))
  /\ (forall list, prop list "type" = VStr "orderedList" ->
        processNode list
        = (let* items :=
             content_map
               (fun item index =>
                  processListItem item
                    (number_toString (Z.of_nat index + 1) ++ "."))
               list in
           Ok (VStr (join nl items))))
  /\ processNode
       (element "bulletList"
          [element "listItem" [element "paragraph" [text "A"]];
           element "listItem" [element "paragraph" [text "B"]]])
     = Ok (VStr ("- A" ++ nl ++ "- B")).
Proof.
  intros Hc. split; [|split; [|split]].
  - rewrite (processListItem_rule item prefix _ Hc). cbn [map_index Nat.eqb].
    now rewrite (map_index_later _ (fun child => "  " ++ toString child)).
  - exact processNode_bulletList.
  - exact processNode_orderedList.
  - reflexivity.
Qed.

(** C5, on the code. The list rules put the marker and the two spaces before
    each rendered child, not before each line: the bullet list of A and B is
    "- A", newline, "- B", but a paragraph that holds a hard break is one
    child of two lines, and its second line leaves the item without the two
    spaces; so does the second item of a list nested in an item. *)
Theorem list_item_indents_children_not_lines :
  let item (content : list value) := element "listItem" content in
  let paragraph (content : list value) := element "paragraph" content in
  processNode
    (element "bulletList" [item [paragraph [text "A"]];
                           item [paragraph [text "B"]]])
  = Ok (VStr ("- A" ++ nl ++ "- B"))
  /\ processNode
       (element "bulletList"
          [item [paragraph [text "A"; element "hardBreak" []; text "B"]]])
     = Ok (VStr ("- A" ++ nl ++ "B"))
  /\ lines ("- A" ++ nl ++ "B") = ["- A"; "B"]
  /\ startsWith "B" "  " = false
  /\ processNode
       (element "orderedList"
          [item [paragraph [text "A"];
                 element "bulletList" [item [paragraph [text "x"]];
                                       item [paragraph [text "y"]]]];
           item [paragraph [text "B"]]])
     = Ok (VStr ("1. A" ++ nl ++ "  - x" ++ nl ++ "- y" ++ nl ++ "2. B"))
  /\ lines ("1. A" ++ nl ++ "  - x" ++ nl ++ "- y" ++ nl ++ "2. B")
     = ["1. A"; "  - x"; "- y"; "2. B"]
  /\ startsWith "- y" "  " = false.
Proof. cbv zeta. repeat split; reflexivity. Qed.

(** ** The subpages placeholder *)

Lemma processNode_subpages (node : value) :
  prop node "type" = VStr "subpages" ->
  processNode node = Ok (VStr "ðŸ“‘ [Subpages List]").
Proof. intros Htype. enter_rule Htype. reflexivity. Qed.

(** C1, on the code. The converter renders a subpages node as the label
    below, while [getPage] looks for the text "{{SUBPAGES}}": the label does
    not hold it, so whatever child pages were fetched, [getPage] returns the
    converted text as it is, with the label neither replaced by the list of
    links nor removed. *)
Theorem subpages_token_is_not_the_sentinel :
  let document := element "doc" [VObj [("type", VStr "subpages")]] in
  let emitted := "ðŸ“‘ [Subpages List]" in
  convertProseMirrorToMarkdown document = Ok emitted
  /\ includes emitted "{{SUBPAGES}}" = false
  /\ (forall subpages, getPage_resolveSubpages emitted subpages = Ok emitted)
  /\ getPage_resolveSubpages "{{SUBPAGES}}"
       [VObj [("title", VStr "Child"); ("id", VStr "p1")]]
     = Ok ("### Subpages" ++ nl ++ "- [Child](page:p1)")
  /\ getPage_resolveSubpages "{{SUBPAGES}}" [] = Ok "".
Proof.
  cbv zeta. split; [reflexivity|]. split; [reflexivity|].
  split; [|split; reflexivity].
  intros subpages. reflexivity.
Qed.

(** ** Trimming *)

Lemma strip_prefix_length (p s r : string) :
  strip_prefix p s = Some r ->
  String.length s = (String.length p + String.length r)%nat.
Proof.
  revert s. induction p as [|a p IH]; intros s H.
  - cbn in H. injection H as <-. reflexivity.
  - destruct s as [|b s]; cbn in H; [discriminate|].
    destruct (Ascii.eqb a b); [|discriminate].
    cbn. now rewrite (IH _ H).
Qed.

Lemma strip_prefix_app (p s r : string) :
  strip_prefix p s = Some r -> s = p ++ r.
Proof.
  revert s. induction p as [|a p IH]; intros s H.
  - cbn in H. injection H as <-. reflexivity.
  - destruct s as [|b s]; cbn in H; [discriminate|].
    destruct (Ascii.eqb_spec a b) as [->|]; [|discriminate].
    cbn. now rewrite <- (IH _ H).
Qed.

Lemma strip_prefix_more (p s r t : string) :
  strip_prefix p s = Some r -> strip_prefix p (s ++ t) = Some (r ++ t).
Proof.
  revert s. induction p as [|a p IH]; intros s H.
  - cbn in H. injection H as <-. reflexivity.
  - destruct s as [|b s]; cbn in H; [discriminate|].
    cbn. destruct (Ascii.eqb a b); [now apply IH | discriminate].
Qed.

(** A text that starts with [w] still does after more text is added. *)
Lemma startsWith_more (s t w : string) :
  startsWith s w = true -> startsWith (s ++ t) w = true.
Proof.
  unfold startsWith. destruct (strip_prefix w s) eqn:E; [|discriminate].
  now rewrite (strip_prefix_more _ _ _ t E).
Qed.

Lemma strip_one_found (ws : list string) (s r : string) :
  strip_one ws s = Some r -> exists w, In w ws /\ strip_prefix w s = Some r.
Proof.
  induction ws as [|w ws IH]; cbn; [discriminate|].
  destruct (strip_prefix w s) eqn:E.
  - intros [= <-]. eauto.
  - intros H. destruct (IH H) as (w' & Hin & Hw'). eauto.
Qed.

Lemma strip_one_none (ws : list string) (s : string) :
  strip_one ws s = None -> forall w, In w ws -> startsWith s w = false.
Proof.
  unfold startsWith. induction ws as [|w' ws IH]; cbn; [tauto|].
  destruct (strip_prefix w' s) eqn:E; [discriminate|].
  intros H w [<-|Hin]; [now rewrite E | now apply IH].
Qed.

(** With enough fuel nothing of [ws] is left in front. *)
Lemma strip_all_done (ws : list string) (fuel : nat) (s : string) :
  Forall (fun w => w <> "") ws ->
  (String.length s <= fuel)%nat ->
  strip_one ws (strip_all ws fuel s) = None.
Proof.
  intros Hws. revert s. induction fuel as [|fuel IH]; intros s Hlen.
  - destruct s; [|cbn in Hlen; lia].
    cbn. destruct (strip_one ws "") eqn:E; [|reflexivity].
    destruct (strip_one_found _ _ _ E) as (w & Hin & Hw).
    rewrite Forall_forall in Hws. specialize (Hws w Hin).
    destruct w; [congruence | discriminate].
  - cbn. destruct (strip_one ws s) eqn:E; [|exact E].
    apply IH. destruct (strip_one_found _ _ _ E) as (w & Hin & Hw).
    rewrite Forall_forall in Hws. specialize (Hws w Hin).
    apply strip_prefix_length in Hw.
    destruct w; [congruence | cbn in Hw; lia].
Qed.

(** What is left is the end of the text. *)
Lemma strip_all_suffix (ws : list string) (fuel : nat) (s : string) :
  exists p, s = p ++ strip_all ws fuel s.
Proof.
  revert s. induction fuel as [|fuel IH]; intros s; [now exists ""|].
  cbn. destruct (strip_one ws s) eqn:E; [|now exists ""].
  destruct (strip_one_found _ _ _ E) as (w & _ & Hw).
  destruct (IH s0) as [p Hp]. exists (w ++ p).
  rewrite append_assoc, <- Hp. now apply strip_prefix_app.
Qed.

Lemma string_rev_app (a b : string) :
  string_rev (a ++ b) = string_rev b ++ string_rev a.
Proof.
  induction a as [|c a IH]; cbn.
  - now rewrite append_nil_r.
  - now rewrite IH, append_assoc.
Qed.

Lemma string_rev_involutive (s : string) : string_rev (string_rev s) = s.
Proof.
  induction s as [|c s IH]; cbn; [reflexivity|].
  now rewrite string_rev_app, IH.
Qed.

Lemma string_rev_length (s : string) :
  String.length (string_rev s) = String.length s.
Proof.
  induction s as [|c s IH]; cbn; [reflexivity|].
  rewrite length_app, IH. cbn. lia.
Qed.

Lemma whiteSpace_nonempty : Forall (fun w => w <> "") whiteSpace.
Proof. repeat constructor; discriminate. Qed.

Lemma whiteSpace_rev_nonempty :
  Forall (fun w => w <> "") (map string_rev whiteSpace).
Proof. repeat constructor; discriminate. Qed.

(** [trim] leaves no WhiteSpace or LineTerminator at either end. *)
Lemma trim_no_whiteSpace (s w : string) :
  In w whiteSpace ->
  startsWith (trim s) w = false /\ endsWith (trim s) w = false.
Proof.
  intros Hin. unfold trim, trimEnd, endsWith.
  set (t := trimStart s).
  set (x := strip_all (map string_rev whiteSpace) (String.length t)
              (string_rev t)).
  assert (Hstart : startsWith t w = false).
  { apply (strip_one_none whiteSpace); [|exact Hin].
    apply strip_all_done; [exact whiteSpace_nonempty | lia]. }
  assert (Hend : startsWith x (string_rev w) = false).
  { apply (strip_one_none (map string_rev whiteSpace));
      [|now apply in_map].
    apply strip_all_done; [exact whiteSpace_rev_nonempty|].
    rewrite string_rev_length. lia. }
  split.
  - destruct (strip_all_suffix (map string_rev whiteSpace)
                (String.length t) (string_rev t)) as [p Hp].
    fold x in Hp.
    assert (Ht : t = string_rev x ++ string_rev p).
    { rewrite <- string_rev_app, <- Hp. now rewrite string_rev_involutive. }
    destruct (startsWith (string_rev x) w) eqn:E; [|reflexivity].
    apply (startsWith_more _ (string_rev p)) in E. congruence.
  - now rewrite string_rev_involutive.
Qed.

(** What [strip_all] takes away is a run of members of [ws]. *)
Lemma strip_all_run (ws : list string) (fuel : nat) (s : string) :
  exists l, Forall (fun w => In w ws) l
            /\ s = String.concat "" l ++ strip_all ws fuel s.
Proof.
  revert s. induction fuel as [|fuel IH]; intros s; [now exists []|].
  cbn [strip_all]. destruct (strip_one ws s) eqn:E; [|now exists []].
  destruct (strip_one_found _ _ _ E) as (w & Hin & Hw).
  destruct (IH s0) as (l & Hl & Hs). exists (w :: l).
  split; [now constructor|].
  rewrite concat_nil_cons, append_assoc, <- Hs.
  exact (strip_prefix_app _ _ _ Hw).
Qed.

Lemma string_rev_concat (l : list string) :
  string_rev (String.concat "" l) = String.concat "" (rev (map string_rev l)).
Proof.
  induction l as [|a l IH]; [reflexivity|].
  rewrite concat_nil_cons, string_rev_app, IH. cbn [map rev].
  now rewrite concat_nil_app.
Qed.

(** [trim] removes a run of WhiteSpace and LineTerminator characters from
    each end of the text, and nothing else. *)
Lemma trim_between (s : string) :
  exists leading trailing,
    whiteSpace_run leading /\ whiteSpace_run trailing
    /\ s = leading ++ trim s ++ trailing.
Proof.
  destruct (strip_all_run whiteSpace (String.length s) s) as (l1 & H1 & E1).
  fold (trimStart s) in E1. unfold trim, trimEnd.
  set (t := trimStart s) in *.
  destruct (strip_all_run (map string_rev whiteSpace) (String.length t)
              (string_rev t)) as (l2 & H2 & E2).
  set (x := strip_all (map string_rev whiteSpace) (String.length t)
              (string_rev t)) in *.
  exists (String.concat "" l1), (String.concat "" (rev (map string_rev l2))).
  split; [now exists l1|]. split.
  - exists (rev (map string_rev l2)). split; [|reflexivity].
    apply Forall_forall. intros w Hin. apply in_rev in Hin.
    apply in_map_iff in Hin. destruct Hin as (w' & <- & Hw').
    rewrite Forall_forall in H2. specialize (H2 _ Hw').
    apply in_map_iff in H2. destruct H2 as (w0 & <- & H0).
    now rewrite string_rev_involutive.
  - rewrite <- string_rev_concat, <- string_rev_app, <- E2,
      string_rev_involutive.
    exact E1.
Qed.

(** ** The entry point *)

(** C7. The entry point returns the empty string when the root is absent or
    has no content field. With a root and a content that are both truthy its
    result is the rendering of the root without the whitespace at its two
    ends: the rendering is a run of WhiteSpace and LineTerminator
    characters, the result, and another such run. And a string it returns
    never starts or ends with a WhiteSpace or LineTerminator character. *)
Theorem convert_empty_or_trimmed (content : value) :
  (absent content = true \/ absent (prop content "content") = true ->
   convertProseMirrorToMarkdown content = Ok "")
  /\ (forall rendered,
        truthy content = true ->
        truthy (prop content "content") = true ->
        processNode content = Ok (VStr rendered) ->
        exists s leading trailing,
          convertProseMirrorToMarkdown content = Ok s
          /\ whiteSpace_run leading /\ whiteSpace_run trailing
          /\ rendered = leading ++ s ++ trailing)
  /\ (forall s,
        convertProseMirrorToMarkdown content = Ok s ->
        forall w, In w whiteSpace ->
                  startsWith s w = false /\ endsWith s w = false).
Proof.
  unfold convertProseMirrorToMarkdown. split; [|split].
  - intros [H|H].
    + destruct content; cbn in H; try discriminate; reflexivity.
    + destruct (prop content "content"); cbn in H; try discriminate;
        cbn; now rewrite orb_true_r.
  - intros rendered -> -> ->.
    destruct (trim_between rendered) as (leading & trailing & Hl & Ht & E).
    exists (trim rendered), leading, trailing. now repeat split.
  - intros s H w Hin.
    destruct (negb (truthy content)
              || negb (truthy (prop content "content"))).
    + injection H as <-. split.
      * apply (strip_one_none whiteSpace); [reflexivity | exact Hin].
      * apply (trim_no_whiteSpace "" w Hin).
    + destruct (processNode content) as [[]|]; cbn in H; try discriminate.
      injection H as <-. now apply trim_no_whiteSpace.
Qed.

(** ** Well-formed trees are converted *)

(** Induction on a tree along its [content]. *)
Lemma lookup_in (key : string) (fields : list (string * value)) :
  lookup key fields = VUndefined
  \/ exists k, In (k, lookup key fields) fields.
Proof.
  induction fields as [|[k v] fields IH]; [now left|].
  cbn [lookup]. destruct (key =? k).
  - right. exists k. now left.
  - destruct IH as [IH|[k' IH]]; [now left|].
    right. exists k'. now right.
Qed.

Lemma content_ind (P : value -> Prop) :
  (forall node,
      (forall l, prop node "content" = VArr l -> Forall P l) -> P node) ->
  forall v, P v.
Proof.
  intros step.
  assert (H : forall v,
             P v /\ (forall l, v = VArr l -> Forall P l)).
  { induction v as [| | b | n | s | l IH | fs IH] using value_ind_nested;
      try (split; [apply step; cbn; discriminate | discriminate]).
    - split; [apply step; cbn; discriminate|].
      intros l' [= <-]. eapply Forall_impl; [|exact IH]. now intros a [Ha _].
    - split; [|discriminate]. apply step. cbn [prop]. intros l Hl.
      destruct (lookup_in "content" fs) as [E|[k Hin]]; [congruence|].
      rewrite Hl in Hin. rewrite Forall_forall in IH.
      now apply (proj2 (IH _ Hin) l). }
  intros v. apply H.
Qed.










(** ** Determinism *)

Lemma same_tree_refl (v : value) : same_tree v v.
Proof.
  induction v as [| | b | n | s | l IH | fs IH] using value_ind_nested;
    try constructor.
  - induction IH; constructor; assumption.
  - intros key. induction IH as [|[k v] fs Hv _ IHfs]; cbn; [constructor|].
    destruct (key =? k); assumption.
Qed.

Lemma same_result_refl (r : result value) : same_result r r.
Proof. destruct r; cbn; [apply same_tree_refl | reflexivity]. Qed.

Lemma join_element_same (a b : value) :
  same_tree a b -> toString a = toString b -> join_element a = join_element b.
Proof. intros H E. destruct H; cbn in *; congruence. Qed.

Lemma toString_same (a b : value) : same_tree a b -> toString a = toString b.
Proof.
  revert b.
  induction a as [| | x | n | s | l IH | fs IH] using value_ind_nested;
    intros b H; inversion H; subst; try reflexivity.
  cbn [toString]. f_equal. clear H.
  match goal with H2 : Forall2 _ _ _ |- _ => rename H2 into Hl end.
  revert IH. induction Hl as [|x y l l' Hxy _ IHl]; intros IH; [reflexivity|].
  inversion IH; subst. cbn [map]. f_equal; [|now apply IHl].
  apply (join_element_same x y Hxy). auto.
Qed.

Lemma join_same (sep : string) (l1 l2 : list value) :
  Forall2 same_tree l1 l2 -> join sep l1 = join sep l2.
Proof.
  intros H. unfold join. f_equal.
  induction H as [|x y l l' Hxy _ IH]; [reflexivity|].
  cbn [map]. f_equal; [|exact IH].
  apply join_element_same; [exact Hxy | now apply toString_same].
Qed.

Lemma truthy_same (a b : value) : same_tree a b -> truthy a = truthy b.
Proof. now destruct 1. Qed.

Lemma is_str_same (a b : value) (lit : string) :
  same_tree a b -> (a === lit) = (b === lit).
Proof. now destruct 1. Qed.

Lemma prop_same (a b : value) (key : string) :
  same_tree a b -> same_tree (prop a key) (prop b key).
Proof. destruct 1; cbn; try constructor. auto. Qed.

Lemma getOpt_same (a b : value) (key : string) :
  same_tree a b -> same_tree (getOpt a key) (getOpt b key).
Proof. destruct 1; cbn; try constructor. auto. Qed.

Lemma get_same (a b : value) (key : string) :
  same_tree a b -> same_result (get a key) (get b key).
Proof. destruct 1; cbn; try constructor; auto. Qed.

Lemma orElse_same (a b c d : value) :
  same_tree a b -> same_tree c d -> same_tree (orElse a c) (orElse b d).
Proof.
  intros H1 H2. unfold orElse. rewrite <- (truthy_same _ _ H1).
  now destruct (truthy a).
Qed.

Lemma string_repeat_same (s : string) (a b : value) :
  same_tree a b -> string_repeat s a = string_repeat s b.
Proof.
  intros H. unfold string_repeat.
  assert (E : toIntegerOrInfinity a = toIntegerOrInfinity b).
  { pose proof (toString_same _ _ H) as Hs.
    destruct H; cbn [toIntegerOrInfinity]; try reflexivity.
    now rewrite Hs. }
  now rewrite E.
Qed.

Lemma value_toUpperCase_same (a b : value) :
  same_tree a b -> value_toUpperCase a = value_toUpperCase b.
Proof. now destruct 1. Qed.

Lemma value_trim_same (a b : value) :
  same_tree a b -> value_trim a = value_trim b.
Proof. now destruct 1. Qed.

Lemma same_results_bind (r r' : result (list value))
    (k k' : list value -> result value) :
  same_results r r' ->
  (forall l l', Forall2 same_tree l l' -> same_result (k l) (k' l')) ->
  same_result (bind r k) (bind r' k').
Proof.
  intros Hr Hk. destruct r, r'; cbn in Hr |- *; try contradiction; auto.
Qed.

Lemma applyMark_same (t t' mark mark' : value) :
  same_tree t t' -> same_tree mark mark' ->
  same_result (applyMark t mark) (applyMark t' mark').
Proof.
  intros Ht Hm. unfold applyMark.
  pose proof (get_same _ _ "type" Hm) as Hty.
  destruct (get mark "type") as [ty|e], (get mark' "type") as [ty'|e'];
    cbn in Hty; try contradiction; cbn [bind]; [|exact Hty].
  pose proof (prop_same _ _ "attrs" Hm) as Ha.
  pose proof (getOpt_same _ _ "color" Ha) as Hcolor.
  pose proof (get_same _ _ "color" Ha) as Hget.
  rewrite <- !(fun lit => is_str_same ty ty' lit Hty).
  rewrite <- (toString_same _ _ Ht).
  rewrite <- (toString_same _ _
                (orElse_same _ _ _ _ (getOpt_same _ _ "href" Ha)
                   (same_tree_refl (VStr "")))).
  rewrite <- (toString_same _ _
                (orElse_same _ _ _ _ Hcolor (same_tree_refl (VStr "yellow")))).
  rewrite <- (truthy_same _ _ Hcolor).
  repeat match goal with
         | |- same_result (if ?b then _ else _) _ => destruct b
         end;
    try apply same_result_refl; try exact Ht.
  destruct (get (prop mark "attrs") "color") as [c|e],
           (get (prop mark' "attrs") "color") as [c'|e'];
    cbn in Hget; try contradiction; cbn [bind same_result]; [|exact Hget].
  rewrite (toString_same _ _ Hget). apply same_tree_refl.
Qed.

Lemma iterate_same (marks marks' : value) :
  same_tree marks marks' -> same_results (iterate marks) (iterate marks').
Proof.
  destruct 1; cbn; try reflexivity; [|assumption].
  induction (list_ascii_of_string s); constructor;
    [apply same_tree_refl | assumption].
Qed.

Lemma applyMarks_same (marks marks' : list value) :
  Forall2 same_tree marks marks' ->
  forall t t', same_tree t t' ->
               same_result (applyMarks t marks) (applyMarks t' marks').
Proof.
  induction 1 as [|m m' ms ms' Hm _ IH]; intros t t' Ht; cbn; [exact Ht|].
  pose proof (applyMark_same _ _ _ _ Ht Hm) as H.
  destruct (applyMark t m), (applyMark t' m'); cbn in H |- *;
    try contradiction; auto.
Qed.

Lemma mapM_index_same (cb cb' : value -> nat -> result value)
    (l l' : list value) (i : nat) :
  Forall2 (fun x y => forall j, same_result (cb x j) (cb' y j)) l l' ->
  same_results (mapM_index cb i l) (mapM_index cb' i l').
Proof.
  intros H. revert i. induction H as [|x y l l' Hxy _ IH]; intros i; cbn;
    [constructor|].
  specialize (Hxy i). specialize (IH (S i)).
  destruct (cb x i), (cb' y i); cbn in Hxy |- *; try contradiction; auto.
  destruct (mapM_index cb (S i) l), (mapM_index cb' (S i) l');
    cbn in IH |- *; try contradiction; auto.
Qed.

Lemma content_map_same (cb cb' : value -> nat -> result value)
    (a b : value) :
  same_tree a b ->
  (forall l l', prop a "content" = VArr l -> prop b "content" = VArr l' ->
                Forall2 (fun x y => forall j, same_result (cb x j) (cb' y j))
                  l l') ->
  same_results (content_map cb a) (content_map cb' b).
Proof.
  intros Hab Hcb. rewrite !content_map_eq.
  pose proof (prop_same _ _ "content" Hab) as Hc.
  assert (Harr : same_results
                   (array_map cb (orElse (prop a "content") (VArr [])))
                   (array_map cb' (orElse (prop b "content") (VArr [])))).
  { unfold orElse. rewrite <- (truthy_same _ _ Hc).
    remember (prop a "content") as c eqn:Ec.
    remember (prop b "content") as c' eqn:Ec'.
    destruct Hc; cbn [truthy array_map];
      try match goal with
          | |- context [if ?b then _ else _] => destruct b
          end;
      cbn; try reflexivity; try constructor.
    apply mapM_index_same. now apply Hcb. }
  destruct Hab; cbn [get bind]; try exact Harr; reflexivity.
Qed.

Lemma Forall2_same_length {A B : Type} (R : A -> B -> Prop) (l : list A)
    (l' : list B) :
  Forall2 R l l' -> List.length l = List.length l'.
Proof. induction 1; cbn; congruence. Qed.

Lemma map_index_same {B : Type} (f : string -> nat -> B)
    (l l' : list value) (i : nat) :
  Forall2 same_tree l l' ->
  map_index (fun line j => f (toString line) j) i l
  = map_index (fun line j => f (toString line) j) i l'.
Proof.
  intros H. revert i. induction H as [|x y l l' Hxy _ IH]; intros i; cbn;
    [reflexivity|].
  now rewrite (toString_same _ _ Hxy), IH.
Qed.

Lemma text_rule_same (a b : value) :
  same_tree a b ->
  same_result
    (if truthy (prop a "marks")
     then let* marks := iterate (prop a "marks") in
          applyMarks (orElse (prop a "text") (VStr "")) marks
     else Ok (orElse (prop a "text") (VStr "")))
    (if truthy (prop b "marks")
     then let* marks := iterate (prop b "marks") in
          applyMarks (orElse (prop b "text") (VStr "")) marks
     else Ok (orElse (prop b "text") (VStr ""))).
Proof.
  intros Hab.
  pose proof (prop_same _ _ "marks" Hab) as Hm.
  pose proof (orElse_same _ _ _ _ (prop_same _ _ "text" Hab)
                (same_tree_refl (VStr ""))) as Ht.
  rewrite <- (truthy_same _ _ Hm).
  destruct (truthy (prop a "marks")); [|exact Ht].
  apply same_results_bind; [now apply iterate_same|].
  intros l l' Hl. now apply applyMarks_same.
Qed.

(** The three closures give the same outcome on the same tree. *)
Lemma rules_same (a : value) :
  forall b, same_tree a b ->
    same_result (processNode a) (processNode b)
    /\ (forall prefix,
          same_result (processListItem a prefix) (processListItem b prefix))
    /\ same_result (processTaskItem a) (processTaskItem b).
Proof.
  induction a as [a IH] using content_ind. intros b Hab.
  assert (Hmap : forall cb cb',
             (forall x y, same_tree x y ->
                (forall z, same_tree x z ->
                   same_result (processNode x) (processNode z)
                   /\ (forall prefix,
                         same_result (processListItem x prefix)
                           (processListItem z prefix))
                   /\ same_result (processTaskItem x) (processTaskItem z)) ->
                forall j : nat, same_result (cb x j) (cb' y j)) ->
             same_results (content_map cb a) (content_map cb' b)).
  { intros cb cb' Hcb. apply content_map_same; [exact Hab|].
    intros l l' Hl Hl'. specialize (IH l Hl).
    pose proof (prop_same _ _ "content" Hab) as Hc.
    rewrite Hl, Hl' in Hc. inversion Hc as [| | | | |? ? Hall|]; subst.
    clear Hc Hl Hl'. induction Hall as [|x y l l' Hxy _ IHl];
      constructor.
    - apply Hcb; [exact Hxy | now inversion IH].
    - apply IHl. now inversion IH. }
  pose proof (Hmap (fun n _ => processNode n) (fun n _ => processNode n))
    as Hparts.
  pose proof (Hmap (fun item _ => processListItem item "-")
                (fun item _ => processListItem item "-")) as Hbullets.
  pose proof (Hmap (fun item index =>
                      processListItem item
                        (number_toString (Z.of_nat index + 1) ++ "."))
                (fun item index =>
                   processListItem item
                     (number_toString (Z.of_nat index + 1) ++ ".")))
    as Hordered.
  pose proof (Hmap (fun item _ => processTaskItem item)
                (fun item _ => processTaskItem item)) as Htasks.
  pose proof (Hmap (fun n _ =>
                      let* r := processNode n in
                      Ok (VStr ("> " ++ toString r)))
                (fun n _ =>
                   let* r := processNode n in
                   Ok (VStr ("> " ++ toString r)))) as Hquoted.
  clear Hmap.
  specialize (Hparts (fun x y Hxy H _ => proj1 (H y Hxy))).
  specialize (Hbullets (fun x y Hxy H _ => proj1 (proj2 (H y Hxy)) "-")).
  specialize (Hordered (fun x y Hxy H _ => proj1 (proj2 (H y Hxy)) _)).
  specialize (Htasks (fun x y Hxy H _ => proj2 (proj2 (H y Hxy)))).
  assert (Hq : forall x y, same_tree x y ->
                (forall z, same_tree x z ->
                   same_result (processNode x) (processNode z)
                   /\ (forall prefix,
                         same_result (processListItem x prefix)
                           (processListItem z prefix))
                   /\ same_result (processTaskItem x) (processTaskItem z)) ->
                forall j : nat,
                  same_result
                    (let* r := processNode x in Ok (VStr ("> " ++ toString r)))
                    (let* r := processNode y in Ok (VStr ("> " ++ toString r)))).
  { intros x y Hxy H _. pose proof (proj1 (H y Hxy)) as Hr.
    destruct (processNode x), (processNode y); cbn in Hr |- *;
      try contradiction; [|exact Hr].
    rewrite (toString_same _ _ Hr). apply same_tree_refl. }
  specialize (Hquoted Hq). clear Hq IH.
  pose proof (prop_same _ _ "attrs" Hab) as Ha.
  pose proof (fun k d =>
                eq_sym (toString_same _ _
                  (orElse_same _ _ d d (getOpt_same _ _ k Ha)
                     (same_tree_refl d)))) as E1.
  pose proof (fun k d =>
                eq_sym (truthy_same _ _
                  (orElse_same _ _ d d (getOpt_same _ _ k Ha)
                     (same_tree_refl d)))) as E2.
  pose proof (fun k => eq_sym (toString_same _ _ (getOpt_same _ _ k Ha)))
    as E3.
  pose proof (fun k => eq_sym (truthy_same _ _ (getOpt_same _ _ k Ha))) as E4.
  pose proof (fun k lit =>
                eq_sym (is_str_same _ _ lit (getOpt_same _ _ k Ha))) as E5.
  pose proof (fun s k d =>
                eq_sym (string_repeat_same s _ _
                  (orElse_same _ _ d d (getOpt_same _ _ k Ha)
                     (same_tree_refl d)))) as E6.
  pose proof (fun k d =>
                eq_sym (value_toUpperCase_same _ _
                  (orElse_same _ _ d d (getOpt_same _ _ k Ha)
                     (same_tree_refl d)))) as E7.
  pose proof (eq_sym (toString_same _ _
                (orElse_same _ _ _ _
                   (orElse_same _ _ _ _ (getOpt_same _ _ "label" Ha)
                      (getOpt_same _ _ "id" Ha))
                   (same_tree_refl (VStr ""))))) as E8.
  split; [|split].
  - rewrite !processNode_eq. unfold processNodeF.
    pose proof (get_same _ _ "type" Hab) as Hty.
    destruct (get a "type") as [ty|e], (get b "type") as [ty'|e'];
      cbn in Hty; try contradiction; cbn [bind]; [|exact Hty].
    cbv zeta.
    rewrite <- !(fun lit => is_str_same ty ty' lit Hty).
    rewrite ?E8, ?E7, ?E6, ?E5, ?E2, ?E1, ?E4, ?E3.
    pose proof (text_rule_same a b Hab) as Htext.
    repeat match goal with
           | |- same_result (if ?c then _ else _) (if ?c then _ else _) =>
               destruct c
           end;
      try apply same_result_refl;
      try exact Htext;
      (eapply same_results_bind; [eassumption|]);
      intros l l' Hl; rewrite ?(join_same _ l l' Hl);
      apply same_result_refl.
  - intros prefix. rewrite !processListItem_eq. unfold processListItemF.
    apply same_results_bind; [exact Hparts|].
    intros l l' Hl.
    pose proof (map_index_same
                  (fun s i => if (i =? 0)%nat then prefix ++ " " ++ s
                              else "  " ++ s) l l' 0 Hl) as E.
    cbv beta in E. rewrite E. apply same_result_refl.
  - rewrite !processTaskItem_eq. unfold processTaskItemF.
    pose proof (get_same _ _ "attrs" Hab) as Hattrs.
    destruct (get a "attrs") as [x|e], (get b "attrs") as [x'|e'];
      cbn in Hattrs; try contradiction; cbn [bind]; [|exact Hattrs].
    rewrite <- (truthy_same _ _
                  (orElse_same _ _ _ _ (getOpt_same _ _ "checked" Hattrs)
                     (same_tree_refl (VBool false)))).
    apply same_results_bind; [exact Hparts|].
    intros l l' Hl. rewrite (join_same _ l l' Hl). apply same_result_refl.
Qed.

(** C9. The conversion is deterministic: the output, or the exception
    raised, is a function of the input tree alone. Two invocations on
    structurally identical trees (the same primitives, the same array
    elements in order, objects with the same fields whatever the order they
    were written in) return the same string, byte for byte. *)
Theorem convert_deterministic (tree1 tree2 : value) :
  same_tree tree1 tree2 ->
  convertProseMirrorToMarkdown tree1 = convertProseMirrorToMarkdown tree2.
Proof.
  intros H. unfold convertProseMirrorToMarkdown.
  rewrite <- (truthy_same _ _ H).
  rewrite <- (truthy_same _ _ (prop_same _ _ "content" H)).
  destruct (negb (truthy tree1) || negb (truthy (prop tree1 "content")));
    [reflexivity|].
  pose proof (proj1 (rules_same _ _ H)) as Hr.
  destruct (processNode tree1), (processNode tree2); cbn in Hr |- *;
    try contradiction; [now apply value_trim_same | congruence].
Qed.

(** ** More of the rules *)

Lemma join_strings (sep : string) (l : list string) :
  join sep (map VStr l) = String.concat sep l.
Proof. unfold join. now rewrite map_map, map_id. Qed.

Lemma children_element (type : string) (content : list value) :
  children (element type content)
  = mapM_index (fun n _ => processNode n) 0 content.
Proof. reflexivity. Qed.

Lemma mapM_index_all (cb : value -> nat -> result value)
    (g : value -> nat -> value) (l : list value) (i : nat) :
  (forall x j, In x l -> cb x j = Ok (g x j)) ->
  mapM_index cb i l = Ok (map_index g i l).
Proof.
  revert i. induction l as [|x l IH]; intros i H; [reflexivity|].
  cbn. rewrite (H x i (or_introl eq_refl)). cbn.
  rewrite IH by (intros; apply H; now right). reflexivity.
Qed.

Lemma map_index_const {A B : Type} (g : A -> B) (i : nat) (l : list A) :
  map_index (fun x _ => g x) i l = map g l.
Proof. revert i. induction l; intros i; cbn; congruence. Qed.

Lemma map_index_map {A B C : Type} (f : A -> B) (g : B -> nat -> C)
    (i : nat) (l : list A) :
  map_index g i (map f l) = map_index (fun x j => g (f x) j) i l.
Proof. revert i. induction l; intros i; cbn; congruence. Qed.

Lemma string_repeat_level (n : Z) :
  string_repeat "#" (VNum n)
  = if (n <? 0)%Z then Throw RangeError
    else Ok (repeat_string "#" (Z.to_nat n)).
Proof. reflexivity. Qed.

(** X1. A heading of level 1 to 6 is as many "#" as its level, a space and
    its text. A level that is absent, null, 0 or otherwise falsy counts as
    1; a negative level makes the rule raise RangeError (once the children
    are rendered). *)
Theorem heading_levels (node : value) (parts : list value) :
  prop node "type" = VStr "heading" ->
  children node = Ok parts ->
  (forall n, getOpt (prop node "attrs") "level" = VNum n ->
             (0 < n <= 6)%Z ->
             processNode node
             = Ok (VStr (repeat_string "#" (Z.to_nat n) ++ " "
                         ++ join "" parts)))
  /\ (truthy (getOpt (prop node "attrs") "level") = false ->
      processNode node = Ok (VStr ("# " ++ join "" parts)))
  /\ (forall n, getOpt (prop node "attrs") "level" = VNum n -> (n < 0)%Z ->
                processNode node = Throw RangeError).
Proof.
  intros Htype Hc.
  assert (Hrule : processNode node
                  = (let* hashes :=
                       string_repeat "#"
                         (orElse (getOpt (prop node "attrs") "level") (VNum 1))
                     in Ok (VStr (hashes ++ " " ++ join "" parts)))).
  { enter_rule Htype. fold (children node). rewrite Hc. reflexivity. }
  rewrite Hrule. unfold orElse. repeat split.
  - intros n -> Hn. cbn [truthy]. destruct (Z.eqb_spec n 0); [lia|].
    cbn [negb]. rewrite string_repeat_level.
    destruct (Z.ltb_spec n 0); [lia | reflexivity].
  - intros ->. reflexivity.
  - intros n -> Hn. cbn [truthy]. destruct (Z.eqb_spec n 0); [lia|].
    cbn [negb]. rewrite string_repeat_level.
    destruct (Z.ltb_spec n 0); [reflexivity | lia].
Qed.

(** X2. A table renders one line per row and nothing else (no separator
    line under the header): each row is "| ", its cells joined by " | ",
    and " |"; header cells and plain cells are rendered alike. *)
Theorem table_rows (rows : list (list (bool * string))) :
  let cell (c : bool * string) :=
    element (if fst c then "tableHeader" else "tableCell") [text (snd c)] in
  let row (r : list (bool * string)) := element "tableRow" (map cell r) in
  processNode (element "table" (map row rows))
  = Ok (VStr (String.concat nl
                (map (fun r => "| " ++ String.concat " | " (map snd r) ++ " |")
                   rows))).
Proof.
  cbv zeta.
  set (cell := fun c : bool * string =>
                 element (if fst c then "tableHeader" else "tableCell")
                   [text (snd c)]).
  set (row := fun r => element "tableRow" (map cell r)).
  assert (Hcell : forall c, processNode (cell c) = Ok (VStr (snd c))).
  { intros [[] s]; unfold cell; cbn [fst snd];
      rewrite processNode_eq; unfold processNodeF; cbn [get prop lookup bind];
      cbn -[processNode]; rewrite processNode_plain_text; reflexivity. }
  assert (Hrow : forall r,
             processNode (row r)
             = Ok (VStr ("| " ++ String.concat " | " (map snd r) ++ " |"))).
  { intros r. unfold row. rewrite processNode_eq. unfold processNodeF.
    cbn [get prop lookup bind element]. cbn -[processNode content_map].
    change (content_map (fun n _ => processNode n)
              (VObj [("type", VStr "tableRow"); ("content", VArr (map cell r))]))
      with (children (element "tableRow" (map cell r))).
    rewrite children_element.
    rewrite (mapM_index_all _ (fun x _ => match processNode x with
                                          | Ok v => v
                                          | Throw _ => VUndefined
                                          end)).
    - cbn [bind]. rewrite map_index_const, map_map.
      rewrite (map_ext _ (fun c => VStr (snd c)))
        by (intros c; now rewrite Hcell).
      rewrite <- (map_map snd VStr), join_strings. reflexivity.
    - intros x j Hin. apply in_map_iff in Hin. destruct Hin as (c & <- & _).
      now rewrite Hcell. }
  rewrite processNode_eq. unfold processNodeF.
  cbn [get prop lookup bind element]. cbn -[processNode content_map].
  change (content_map (fun n _ => processNode n)
            (VObj [("type", VStr "table"); ("content", VArr (map row rows))]))
    with (children (element "table" (map row rows))).
  rewrite children_element.
  rewrite (mapM_index_all _ (fun x _ => match processNode x with
                                        | Ok v => v
                                        | Throw _ => VUndefined
                                        end)).
  - cbn [bind]. rewrite map_index_const, map_map.
    rewrite (map_ext _ (fun r => VStr ("| " ++ String.concat " | " (map snd r)
                                          ++ " |")))
      by (intros r; now rewrite Hrow).
    rewrite <- (map_map (fun r => "| " ++ String.concat " | " (map snd r) ++ " |")
                  VStr), join_strings.
    reflexivity.
  - intros x j Hin. apply in_map_iff in Hin. destruct Hin as (r & <- & _).
    now rewrite Hrow.
Qed.

Lemma processNode_paragraph_text (t : string) :
  processNode (element "paragraph" [text t]) = Ok (VStr t).
Proof.
  rewrite processNode_eq. unfold processNodeF.
  cbn [get prop lookup bind element]. cbn -[processNode].
  rewrite processNode_plain_text. cbn. now rewrite orElse_str.
Qed.

Lemma processListItem_paragraph (t prefix : string) :
  processListItem (element "listItem" [element "paragraph" [text t]]) prefix
  = Ok (VStr (prefix ++ " " ++ t)).
Proof.
  rewrite processListItem_eq. unfold processListItemF.
  cbn [content_map element]. cbn -[processNode].
  rewrite processNode_paragraph_text. reflexivity.
Qed.

(** X3. An ordered list numbers its items from 1 in the order of the
    sequence: the item at index i of a list of one-paragraph items is the
    line made of i + 1 in decimal, a dot, a space and the paragraph; a bullet
    list of the same items has "-" in place of the number. *)
Theorem ordered_list_numbers (paragraphs : list string) :
  let item (t : string) := element "listItem" [element "paragraph" [text t]] in
  processNode (element "orderedList" (map item paragraphs))
  = Ok (VStr (String.concat nl
                (map_index
                   (fun t i => number_toString (Z.of_nat i + 1) ++ ". " ++ t)
                   0 paragraphs)))
  /\ processNode (element "bulletList" (map item paragraphs))
     = Ok (VStr (String.concat nl (map (fun t => "- " ++ t) paragraphs))).
Proof.
  cbv zeta.
  set (item := fun t => element "listItem" [element "paragraph" [text t]]).
  split.
  - rewrite processNode_eq. unfold processNodeF.
    cbn [get prop lookup bind element]. cbn -[processListItem content_map].
    cbn [content_map]. cbn -[processListItem mapM_index].
    rewrite (mapM_index_all _
               (fun x i =>
                  match processListItem x
                          (number_toString (Z.of_nat i + 1) ++ ".") with
                  | Ok v => v
                  | Throw _ => VUndefined
                  end)).
    + cbn [bind]. rewrite map_index_map. f_equal. f_equal.
      unfold join. generalize 0%nat.
      induction paragraphs as [|t ts IH]; intros i; [reflexivity|].
      cbn [map_index map]. unfold item at 1.
      rewrite processListItem_paragraph. cbn [join_element toString].
      rewrite append_assoc.
      destruct ts as [|t' ts]; [reflexivity|].
      specialize (IH (S i)). cbn [map_index map] in IH |- *.
      cbn [String.concat]. cbn [String.concat] in IH. now rewrite IH.
    + intros x j Hin. apply in_map_iff in Hin. destruct Hin as (t & <- & _).
      unfold item. now rewrite processListItem_paragraph.
  - rewrite processNode_eq. unfold processNodeF.
    cbn [get prop lookup bind element]. cbn -[processListItem content_map].
    cbn [content_map]. cbn -[processListItem mapM_index].
    rewrite (mapM_index_all _
               (fun x _ =>
                  match processListItem x "-" with
                  | Ok v => v
                  | Throw _ => VUndefined
                  end)).
    + cbn [bind]. rewrite map_index_const, map_map.
      rewrite (map_ext _ (fun t => VStr ("- " ++ t)))
        by (intros t; unfold item; now rewrite processListItem_paragraph).
      rewrite <- (map_map (fun t => "- " ++ t) VStr), join_strings.
      reflexivity.
    + intros x j Hin. apply in_map_iff in Hin. destruct Hin as (t & <- & _).
      unfold item. now rewrite processListItem_paragraph.
Qed.

(** X4. The blocks of a document are separated by one blank line: a document
    of plain paragraphs converts to their texts joined by two newlines, then
    trimmed at both ends. *)
Theorem document_blocks_blank_line (paragraphs : list string) :
  convertProseMirrorToMarkdown
    (element "doc" (map (fun t => element "paragraph" [text t]) paragraphs))
  = Ok (trim (String.concat (nl ++ nl) paragraphs)).
Proof.
  unfold convertProseMirrorToMarkdown. cbn [truthy element prop lookup].
  cbn [String.eqb Ascii.eqb Bool.eqb negb orb].
  rewrite processNode_eq. unfold processNodeF.
  cbn [get prop lookup bind]. cbn -[processNode content_map nl].
  cbn [content_map]. cbn -[processNode mapM_index nl].
  rewrite (mapM_index_all _
             (fun x _ => match processNode x with
                         | Ok v => v
                         | Throw _ => VUndefined
                         end)).
  - cbn [bind value_trim]. rewrite map_index_const, map_map.
    rewrite (map_ext _ VStr)
      by (intros t; now rewrite processNode_paragraph_text).
    now rewrite join_strings.
  - intros x j Hin. apply in_map_iff in Hin. destruct Hin as (t & <- & _).
    now rewrite processNode_paragraph_text.
Qed.

(** ** Marks that change nothing *)

Lemma applyMark_passed_over (t : string) (mark : value) :
  passed_over mark = true -> applyMark (VStr t) mark = Ok (VStr t).
Proof.
  unfold passed_over. rewrite andb_true_iff, negb_true_iff.
  intros [Hm Hk]. unfold applyMark. rewrite (get_present _ _ Hm). cbn [bind].
  apply orb_true_iff in Hk. destruct Hk as [Hk|Hk].
  - apply negb_true_iff in Hk.
    assert (H : forall kind, In kind mark_kinds ->
                             (prop mark "type" === kind) = false).
    { intros kind Hin. destruct (prop mark "type" === kind) eqn:E; [|reflexivity].
      assert (existsb (is_str (prop mark "type")) mark_kinds = true)
        by (apply existsb_exists; eauto).
      congruence. }
    repeat match goal with
           | |- context [prop mark "type" === ?kind] =>
               rewrite (H kind) by (cbn; tauto)
           end.
    reflexivity.
  - apply andb_true_iff in Hk. destruct Hk as [Hk Hc].
    apply negb_true_iff in Hc. rewrite Hc.
    destruct (prop mark "type") as [| | b | n | s | l | fs];
      try discriminate.
    cbn [is_str] in Hk |- *. apply String.eqb_eq in Hk. subst s. reflexivity.
Qed.

(** X5. A text leaf whose marks are absent, or are all passed over by the
    switch (a kind it does not name, or a textStyle without a color),
    renders as its raw text, unchanged. *)
Theorem marks_without_effect (node : value) (t : string) :
  prop node "type" = VStr "text" ->
  prop node "text" = VStr t ->
  truthy (prop node "marks") = false
  \/ (exists ms, prop node "marks" = VArr ms /\ forallb passed_over ms = true) ->
  processNode node = Ok (VStr t).
Proof.
  intros Htype Htext [Hm|(ms & Hm & Hall)].
  - enter_rule Htype. rewrite Hm, Htext. apply f_equal, orElse_str.
  - rewrite (processNode_text _ _ _ Htype Htext Hm).
    induction ms as [|m ms IH] in Hall |- *; [reflexivity|].
    cbn [forallb] in Hall. apply andb_true_iff in Hall. destruct Hall as [H1 H2].
    cbn [applyMarks]. rewrite (applyMark_passed_over _ _ H1). cbn [bind].
    now apply IH.
Qed.

(** ** What the rules return and raise *)

(** X6. Every rule but the one for text returns a string: when [processNode]
    returns at a node whose type is not "text", the value is a string, and so
    is every value the two item functions return. The entry point then adds
    no exception of its own: on such a root with a truthy content it raises
    exactly when [processNode] does. *)
Theorem rules_return_strings (node type : value) :
  get node "type" = Ok type ->
  (type === "text") = false ->
  (forall v, processNode node = Ok v -> exists s, v = VStr s)
  /\ (forall prefix v, processListItem node prefix = Ok v ->
                       exists s, v = VStr s)
  /\ (forall v, processTaskItem node = Ok v -> exists s, v = VStr s)
  /\ (truthy node = true -> truthy (prop node "content") = true ->
      forall e, convertProseMirrorToMarkdown node = Throw e
                <-> processNode node = Throw e).
Proof.
  intros Hget Hnt.
  assert (Hstr : forall v, processNode node = Ok v -> exists s, v = VStr s).
  { intros v H. rewrite processNode_eq in H. unfold processNodeF in H.
    rewrite Hget in H. cbn [bind] in H. cbv zeta in H. rewrite Hnt in H.
    repeat first
      [ match type of H with
        | (if ?b then _ else _) = _ => destruct b
        end
      | match type of H with
        | context [bind ?r _] => destruct r; cbn [bind] in H
        end ];
      try discriminate; rewrite ?orElse_str in H; injection H as <-; eauto. }
  split; [exact Hstr|]. split; [|split].
  - intros prefix v H. rewrite processListItem_eq in H.
    unfold processListItemF in H.
    destruct (content_map _ node); cbn [bind] in H; [|discriminate].
    injection H as <-. eauto.
  - intros v H. rewrite processTaskItem_eq in H. unfold processTaskItemF in H.
    destruct (get node "attrs"); cbn [bind] in H; [|discriminate].
    destruct (content_map _ node); cbn [bind] in H; [|discriminate].
    injection H as <-. eauto.
  - intros Ht Hc e. unfold convertProseMirrorToMarkdown. rewrite Ht, Hc.
    cbn [negb orb].
    destruct (processNode node) as [v|e'] eqn:E; cbn [bind].
    + destruct (Hstr v eq_refl) as [s ->]. cbn. split; discriminate.
    + split; intros [= ->]; reflexivity.
Qed.

(** ** Lines *)

Lemma lines_cons (s : string) : exists first rest, lines s = first :: rest.
Proof.
  induction s as [|c s (first & rest & IH)]; [now exists "", []|].
  cbn [lines]. rewrite IH. destruct (Ascii.eqb c "010"); eauto.
Qed.

(** Text without a newline in front of a text extends its first line. *)
Lemma lines_app (p s first : string) (rest : list string) :
  includes p nl = false ->
  lines s = first :: rest ->
  lines (p ++ s) = (p ++ first) :: rest.
Proof.
  intros Hp Hs. induction p as [|c p IH]; [exact Hs|].
  rewrite includes_nl_cons in Hp. apply orb_false_iff in Hp.
  destruct Hp as [Hc Hp]. cbn [append lines].
  rewrite Ascii.eqb_sym, Hc, (IH Hp). reflexivity.
Qed.

Lemma lines_one (p : string) : includes p nl = false -> lines p = [p].
Proof.
  intros Hp. rewrite <- (append_nil_r p) at 1.
  rewrite (lines_app p "" "" [] Hp eq_refl). now rewrite append_nil_r.
Qed.

Lemma lines_nl (s : string) : lines (nl ++ s) = "" :: lines s.
Proof. reflexivity. Qed.

(** The lines of texts without a newline, joined with newlines, are the
    texts. *)
Lemma lines_concat_nl (l : list string) :
  l <> [] ->
  Forall (fun s => includes s nl = false) l ->
  lines (String.concat nl l) = l.
Proof.
  intros Hne H. induction H as [|a l Ha Hl IH]; [congruence|].
  destruct l as [|b l]; [now apply lines_one|].
  rewrite concat_cons2.
  rewrite (lines_app a _ "" (lines (String.concat nl (b :: l))) Ha).
  - rewrite append_nil_r, IH by discriminate. reflexivity.
  - apply lines_nl.
Qed.

(** Replacing each newline by a newline and [p] puts [p] in front of every
    line after the first. *)
Lemma lines_replace_newlines (p q c : string) :
  includes p nl = false ->
  includes q nl = false ->
  lines (q ++ replace_newlines c (nl ++ p))
  = match lines c with
    | first :: rest => (q ++ first) :: map (fun l => p ++ l) rest
    | [] => []
    end.
Proof.
  intros Hp. revert q. induction c as [|ch c IH]; intros q Hq.
  - cbn [replace_newlines lines]. rewrite append_nil_r. now apply lines_one.
  - cbn [replace_newlines lines].
    destruct (Ascii.eqb ch "010") eqn:E.
    + rewrite append_assoc.
      rewrite (lines_app q _ "" (lines (p ++ replace_newlines c (nl ++ p))) Hq)
        by apply lines_nl.
      rewrite (IH p Hp). destruct (lines_cons c) as (first & rest & ->).
      reflexivity.
    + change (q ++ String ch (replace_newlines c (nl ++ p)))
        with (q ++ String ch "" ++ replace_newlines c (nl ++ p)).
      rewrite <- append_assoc. rewrite IH.
      * destruct (lines_cons c) as (first & rest & ->).
        now rewrite append_assoc.
      * rewrite includes_nl_app, Hq, includes_nl_cons, Ascii.eqb_sym, E.
        reflexivity.
Qed.

(** ** Quoting *)

Lemma mapM_index_post (cb : value -> nat -> result value) (f : value -> value)
    (i : nat) (l : list value) :
  mapM_index (fun n j => let* r := cb n j in Ok (f r)) i l
  = (let* rs := mapM_index cb i l in Ok (map f rs)).
Proof.
  revert i. induction l as [|x l IH]; intros i; [reflexivity|].
  cbn [mapM_index]. destruct (cb x i); cbn [bind]; [|reflexivity].
  rewrite IH. destruct (mapM_index cb (S i) l); reflexivity.
Qed.

Lemma content_map_post (cb : value -> nat -> result value) (f : value -> value)
    (node : value) :
  content_map (fun n j => let* r := cb n j in Ok (f r)) node
  = (let* rs := content_map cb node in Ok (map f rs)).
Proof.
  rewrite !content_map_eq. destruct (get node "content"); [|reflexivity].
  cbn [bind]. destruct (orElse a (VArr [])); try reflexivity.
  cbn [array_map]. apply mapM_index_post.
Qed.

(** X7. A callout puts "> " in front of every line of its output: the first
    line is the label in bold and upper case, and each line of the content
    (the rendered children joined with newlines, lines inside a child
    included) follows with the same marker, provided the label itself does
    not hold a newline. *)
Theorem callout_quotes_every_line (node : value) (parts : list value)
    (kind : string) :
  prop node "type" = VStr "callout" ->
  children node = Ok parts ->
  orElse (getOpt (prop node "attrs") "type") (VStr "info") = VStr kind ->
  includes (toUpperCase kind) nl = false ->
  exists out,
    processNode node = Ok (VStr out)
    /\ lines out
       = ("> **" ++ toUpperCase kind ++ "**")
         :: map (fun l => "> " ++ l) (lines (join nl parts))
    /\ Forall (fun l => startsWith l "> " = true) (lines out).
Proof.
  intros Htype Hc Hkind Hlabel.
  assert (Hout : processNode node
                 = Ok (VStr ("> **" ++ toUpperCase kind ++ "**" ++ nl ++ "> "
                             ++ replace_newlines (join nl parts) (nl ++ "> ")))).
  { enter_rule Htype. fold (children node). rewrite Hc, Hkind. reflexivity. }
  assert (Hlines : lines ("> **" ++ toUpperCase kind ++ "**" ++ nl ++ "> "
                          ++ replace_newlines (join nl parts) (nl ++ "> "))
                   = ("> **" ++ toUpperCase kind ++ "**")
                     :: map (fun l => "> " ++ l) (lines (join nl parts))).
  { replace ("> **" ++ toUpperCase kind ++ "**" ++ nl ++ "> "
             ++ replace_newlines (join nl parts) (nl ++ "> "))
      with (("> **" ++ toUpperCase kind ++ "**")
            ++ nl ++ "> " ++ replace_newlines (join nl parts) (nl ++ "> "))
      by (now rewrite !append_assoc).
    rewrite (lines_app _ _ ""
               (lines ("> " ++ replace_newlines (join nl parts) (nl ++ "> ")))).
    - rewrite append_nil_r. f_equal.
      rewrite (lines_replace_newlines "> " "> ") by reflexivity.
      destruct (lines_cons (join nl parts)) as (first & rest & ->).
      reflexivity.
    - rewrite !includes_nl_app, Hlabel. reflexivity.
    - apply lines_nl. }
  eexists. split; [exact Hout|]. split; [exact Hlines|].
  rewrite Hlines. constructor; [reflexivity|].
  apply Forall_forall. intros l Hin. apply in_map_iff in Hin.
  destruct Hin as (l' & <- & _). reflexivity.
Qed.

(** X8. A blockquote puts "> " in front of each rendered child and joins the
    children with newlines. When it has children and none of them holds a
    newline, its lines are the children, each behind the marker. *)
Theorem blockquote_single_line_children (node : value) (parts : list value) :
  prop node "type" = VStr "blockquote" ->
  children node = Ok parts ->
  processNode node
  = Ok (VStr (String.concat nl (map (fun r => "> " ++ toString r) parts)))
  /\ (parts <> [] ->
      Forall (fun r => includes (toString r) nl = false) parts ->
      forall out, processNode node = Ok (VStr out) ->
        lines out = map (fun r => "> " ++ toString r) parts
        /\ Forall (fun l => startsWith l "> " = true) (lines out)).
Proof.
  intros Htype Hc.
  assert (Hout : processNode node
                 = Ok (VStr (String.concat nl
                               (map (fun r => "> " ++ toString r) parts)))).
  { rewrite (processNode_blockquote _ Htype).
    rewrite (content_map_post (fun n _ => processNode n)
               (fun r => VStr ("> " ++ toString r))).
    fold (children node). rewrite Hc. cbn [bind].
    rewrite <- (map_map (fun r => "> " ++ toString r) VStr), join_strings.
    reflexivity. }
  split; [exact Hout|].
  intros Hne Hall out H.
  assert (E : out = String.concat nl (map (fun r => "> " ++ toString r) parts))
    by congruence.
  subst out. clear H.
  assert (Hlines : lines (String.concat nl
                            (map (fun r => "> " ++ toString r) parts))
                   = map (fun r => "> " ++ toString r) parts).
  { apply lines_concat_nl.
    - destruct parts; [congruence | discriminate].
    - apply Forall_map. eapply Forall_impl; [|exact Hall].
      intros r Hr. cbn beta. now rewrite includes_nl_app, Hr. }
  split; [exact Hlines|]. rewrite Hlines.
  apply Forall_forall. intros l Hin. apply in_map_iff in Hin.
  destruct Hin as (r & <- & _). reflexivity.
Qed.

(** ** Where a RangeError comes from *)







(** ** The filters *)

Lemma lookup_fields (f : string -> value) (keys : list string) (key : string) :
  lookup key (map (fun k => (k, f k)) keys)
  = if existsb (String.eqb key) keys then f key else VUndefined.
Proof.
  induction keys as [|k keys IH]; [reflexivity|].
  cbn [map lookup existsb]. destruct (String.eqb_spec key k) as [->|];
    [reflexivity | exact IH].
Qed.

Lemma lookup_app (key : string) (l1 l2 : list (string * value)) :
  lookup key (l1 ++ l2)%list
  = if existsb (fun kv => key =? fst kv) l1 then lookup key l1
    else lookup key l2.
Proof.
  induction l1 as [|[k v] l1 IH]; [reflexivity|].
  cbn [app lookup existsb fst]. destruct (key =? k); [reflexivity | exact IH].
Qed.

Lemma existsb_fields (f : string -> value) (keys : list string) (key : string) :
  existsb (fun kv => key =? fst kv) (map (fun k => (k, f k)) keys)
  = existsb (String.eqb key) keys.
Proof. induction keys as [|k keys IH]; cbn; [reflexivity | now rewrite IH]. Qed.

Lemma existsb_eqb_in (key : string) (keys : list string) :
  existsb (String.eqb key) keys = true <-> In key keys.
Proof.
  rewrite existsb_exists. split.
  - intros (k & Hin & Hk). apply String.eqb_eq in Hk. now subst.
  - intros Hin. exists key. split; [exact Hin | apply String.eqb_refl].
Qed.

Lemma fields_of_ok (o : value) (keys : list string)
    (fields : list (string * value)) :
  fields_of o keys = Ok fields ->
  absent o = false /\ fields = map (fun k => (k, prop o k)) keys.
Proof.
  unfold fields_of. destruct (absent o); [discriminate|].
  intros [= <-]. auto.
Qed.

(** Reading the same keys again off the object just built gives it back. *)
Lemma fields_of_again (o : value) (keys : list string)
    (fields : list (string * value)) :
  fields_of o keys = Ok fields -> fields_of (VObj fields) keys = Ok fields.
Proof.
  intros H. destruct (fields_of_ok _ _ _ H) as [_ ->].
  unfold fields_of. cbn [absent]. f_equal. apply map_ext_in.
  intros k Hin. f_equal. cbn [prop]. rewrite lookup_fields.
  now rewrite (proj2 (existsb_eqb_in k keys) Hin).
Qed.

(** X10. The filters of a workspace, a space and a group raise TypeError on
    an undefined or null record and on nothing else, and are projections:
    filtering a filtered record gives it back unchanged. *)
Theorem record_filters_are_projections (record : value) :
  (absent record = true ->
   filterWorkspace record = Throw TypeError
   /\ filterSpace record = Throw TypeError
   /\ filterGroup record = Throw TypeError)
  /\ (absent record = false ->
      exists w s g,
        filterWorkspace record = Ok w /\ filterWorkspace w = Ok w
        /\ filterSpace record = Ok s /\ filterSpace s = Ok s
        /\ filterGroup record = Ok g /\ filterGroup g = Ok g).
Proof.
  split.
  - intros H. unfold filterWorkspace, filterSpace, filterGroup, fields_of.
    rewrite H. auto.
  - intros H.
    assert (Hf : forall keys,
               exists fields, fields_of record keys = Ok fields)
      by (intros keys; unfold fields_of; rewrite H; eauto).
    unfold filterWorkspace, filterSpace, filterGroup.
    destruct (Hf [ "id"; "name"; "description"; "defaultSpaceId"; "createdAt";
                   "updatedAt"; "deletedAt" ]) as [w Hw].
    destruct (Hf [ "id"; "name"; "description"; "slug"; "visibility";
                   "createdAt"; "updatedAt"; "deletedAt" ]) as [s Hs].
    destruct (Hf [ "id"; "name"; "description"; "workspaceId"; "createdAt";
                   "updatedAt"; "deletedAt" ]) as [g Hg].
    exists (VObj w), (VObj s), (VObj g).
    rewrite Hw, Hs, Hg, (fields_of_again _ _ _ Hw), (fields_of_again _ _ _ Hs),
      (fields_of_again _ _ _ Hg).
    cbn [bind]. auto 10.
Qed.

Lemma subpage_entries_ok (l entries : list value) :
  mapM (fun p =>
          let* id := get p "id" in
          let* title := get p "title" in
          Ok (VObj [("id", id); ("title", title)])) l = Ok entries ->
  entries
  = map (fun p => VObj [("id", prop p "id"); ("title", prop p "title")]) l.
Proof.
  revert entries. induction l as [|p l IH]; intros entries H.
  - cbn in H. now injection H as <-.
  - cbn [mapM] in H. destruct (absent p) eqn:Ep.
    + destruct p; discriminate.
    + rewrite !(get_present _ _ Ep) in H. cbn [bind] in H.
      destruct (mapM _ l) as [es|e]; cbn [bind] in H; [|discriminate].
      injection H as <-. cbn [map]. now rewrite (IH es eq_refl).
Qed.

(** The shape of what [filterPage] returns. *)
Lemma filterPage_ok (page content : value) (subpages : option (list value))
    (out : value) :
  filterPage page content subpages = Ok out ->
  exists extra,
    out = VObj (map (fun k => (k, prop page k)) page_keys
                ++ content_field content ++ extra)%list
    /\ match subpages with
       | Some (p :: ps) =>
           extra
           = [("subpages",
               VArr (map (fun p => VObj [("id", prop p "id");
                                          ("title", prop p "title")])
                       (p :: ps)))]
       | _ => extra = []
       end.
Proof.
  unfold filterPage. intros H.
  destruct (fields_of page page_keys) as [fields|e] eqn:Ef; cbn [bind] in H;
    [|discriminate].
  destruct (fields_of_ok _ _ _ Ef) as [_ ->].
  destruct subpages as [[|p ps]|]; cbn [bind] in H;
    try (injection H as <-; exists []; split; reflexivity).
  destruct (mapM _ (p :: ps)) as [entries|e] eqn:Em; cbn [bind] in H;
    [|discriminate].
  injection H as <-. rewrite (subpage_entries_ok _ _ Em).
  eexists. split; reflexivity.
Qed.

(** X11. What [filterPage] lets through: the eight page fields as they are
    in the page, the content when it is a string (the empty string
    included), the child pages, each cut down to its id and title, when
    there is at least one, and no other field of the page. *)
Theorem filterPage_whitelist (page content : value)
    (subpages : option (list value)) (out : value) :
  filterPage page content subpages = Ok out ->
  (forall key, In key page_keys -> prop out key = prop page key)
  /\ prop out "content"
     = match content with
       | VStr _ => content
       | _ => VUndefined
       end
  /\ prop out "subpages"
     = match subpages with
       | Some (p :: ps) =>
           VArr (map (fun p => VObj [("id", prop p "id");
                                     ("title", prop p "title")])
                   (p :: ps))
       | _ => VUndefined
       end
  /\ (forall key, ~ In key ("content" :: "subpages" :: page_keys) ->
                  prop out key = VUndefined).
Proof.
  intros H. destruct (filterPage_ok _ _ _ _ H) as (extra & -> & Hextra).
  cbn [prop].
  assert (Hlook : forall key,
             lookup key
               (map (fun k => (k, prop page k)) page_keys
                ++ content_field content ++ extra)%list
             = if existsb (String.eqb key) page_keys then prop page key
               else if key =? "content"
                    then match content with
                         | VStr _ => content
                         | _ => VUndefined
                         end
                    else lookup key extra).
  { intros key. rewrite lookup_app, existsb_fields, lookup_fields.
    destruct (existsb (String.eqb key) page_keys); [reflexivity|].
    destruct content; cbn [content_field app lookup];
      destruct (key =? "content") eqn:E; try reflexivity.
    all: apply String.eqb_eq in E; subst key.
    all: destruct subpages as [[|p ps]|]; subst extra; reflexivity. }
  repeat split.
  - intros key Hin. rewrite Hlook.
    now rewrite (proj2 (existsb_eqb_in key page_keys) Hin).
  - rewrite Hlook. reflexivity.
  - rewrite Hlook. destruct subpages as [[|p ps]|]; subst extra; reflexivity.
  - intros key Hout. rewrite Hlook.
    destruct (existsb (String.eqb key) page_keys) eqn:E.
    + apply existsb_eqb_in in E. exfalso. apply Hout. now right; right.
    + destruct (String.eqb_spec key "content") as [->|Hc];
        [exfalso; apply Hout; now left|].
      destruct subpages as [[|p ps]|]; subst extra; cbn [lookup];
        try reflexivity.
      destruct (String.eqb_spec key "subpages") as [->|];
        [exfalso; apply Hout; now right; left | reflexivity].
Qed.

Lemma names_of (l names : list value) (i : nat) :
  mapM_index (fun c (_ : nat) => get c "name") i l = Ok names ->
  names = map (fun c => prop c "name") l.
Proof.
  revert names i. induction l as [|c l IH]; intros names i H.
  - cbn in H |- *. congruence.
  - cbn [mapM_index] in H.
    destruct (get c "name") as [name|e] eqn:Ec; cbn [bind] in H;
      [|discriminate].
    destruct (mapM_index _ (S i) l) as [rest|e] eqn:El; cbn [bind] in H;
      [|discriminate].
    assert (names = name :: rest) by congruence. subst names.
    cbn [map]. rewrite <- (IH rest (S i) El).
    destruct c; cbn in Ec |- *; congruence.
Qed.

(** X12. A filtered history entry always carries [contributors] as an array:
    the [name] of each contributor of the entry, in order, or the empty
    array when the entry has none; [lastUpdatedBy] is the name of the user
    when there is one and the user id otherwise. A [contributors] that is
    present and not an array makes the filter raise TypeError, and so does a
    contributor that is undefined or null. *)
Theorem filterHistoryEntry_fields (entry : value) :
  (forall out,
      filterHistoryEntry entry = Ok out ->
      (forall l, prop entry "contributors" = VArr l ->
                 prop out "contributors"
                 = VArr (map (fun c => prop c "name") l))
      /\ (absent (prop entry "contributors") = true ->
          prop out "contributors" = VArr [])
      /\ (absent (prop entry "contributors") = true
          \/ exists l, prop entry "contributors" = VArr l)
      /\ prop out "lastUpdatedBy"
         = orElse (getOpt (prop entry "lastUpdatedBy") "name")
             (prop entry "lastUpdatedById"))
  /\ (absent (prop entry "contributors") = false ->
      (forall l, prop entry "contributors" <> VArr l) ->
      filterHistoryEntry entry = Throw TypeError)
  /\ (forall l, prop entry "contributors" = VArr l ->
                Exists (fun c => absent c = true) l ->
                filterHistoryEntry entry = Throw TypeError).
Proof.
  unfold filterHistoryEntry. split; [|split].
  - intros out H.
    destruct (fields_of entry _) as [fields|e] eqn:Ef; cbn [bind] in H;
      [|discriminate].
    destruct (fields_of_ok _ _ _ Ef) as [_ ->].
    destruct (absent (prop entry "contributors")) eqn:Ea; cbn [bind] in H.
    + injection H as <-. cbn. repeat split; eauto.
      intros l Hl. rewrite Hl in Ea. discriminate.
    + destruct (prop entry "contributors") as [| | b | n | s | l | fs] eqn:Ec;
        try discriminate.
      cbn [array_map] in H.
      destruct (mapM_index _ 0 l) as [names|e] eqn:En; cbn [bind] in H;
        [|discriminate].
      injection H as <-. apply names_of in En. subst names. cbn.
      repeat split; eauto.
      * intros l' [= <-]. reflexivity.
      * discriminate.
  - intros Ha Hn. unfold fields_of.
    destruct (absent entry) eqn:Ee; [reflexivity|]. cbn [bind]. rewrite Ha.
    destruct (prop entry "contributors") as [| | b | n | s | l | fs];
      try reflexivity.
    now destruct (Hn l).
  - intros l Hl Hex. unfold fields_of.
    destruct (absent entry) eqn:Ee; [reflexivity|]. cbn [bind]. rewrite Hl.
    cbn [absent array_map].
    assert (Hraise : forall i,
               mapM_index (fun c (_ : nat) => get c "name") i l
               = Throw TypeError).
    { clear Hl. induction Hex as [c l Hc|c l _ IH]; intros i;
        cbn [mapM_index].
      - destruct c; try discriminate; reflexivity.
      - destruct (get c "name") as [name|[]] eqn:Ec; cbn [bind].
        + now rewrite IH.
        + reflexivity.
        + destruct c; discriminate. }
    now rewrite Hraise.
Qed.

(** ** The placeholder in [getPage] *)

Lemma split_first_app (s search before rest : string) :
  split_first s search = Some (before, rest) ->
  s = before ++ search ++ rest.
Proof.
  revert before. induction s as [|c s IH]; intros before H; cbn [split_first] in H.
  - destruct (strip_prefix search "") eqn:E; [|discriminate].
    injection H as <- <-. exact (strip_prefix_app _ _ _ E).
  - destruct (strip_prefix search (String c s)) eqn:E.
    + injection H as <- <-. exact (strip_prefix_app _ _ _ E).
    + destruct (split_first s search) as [[b r]|] eqn:Es; [|discriminate].
      injection H as <- <-. cbn [append]. f_equal. now apply IH.
Qed.

(** No occurrence starts before the one [split_first] finds. *)
Lemma split_first_least (s search before rest : string) :
  split_first s search = Some (before, rest) ->
  forall b1 b2, before = b1 ++ b2 -> b2 <> "" ->
                startsWith (b2 ++ search ++ rest) search = false.
Proof.
  revert before. induction s as [|c s IH]; intros before H b1 b2 Hb Hne;
    cbn [split_first] in H.
  - destruct (strip_prefix search "") eqn:E; [|discriminate].
    injection H as <- <-. destruct b1, b2; cbn in Hb; congruence.
  - destruct (strip_prefix search (String c s)) eqn:E.
    + injection H as <- <-. destruct b1, b2; cbn in Hb; congruence.
    + destruct (split_first s search) as [[b r]|] eqn:Es; [|discriminate].
      injection H as <- <-. destruct b1 as [|c1 b1].
      * cbn [append] in Hb. subst b2. cbn [append].
        rewrite <- (split_first_app _ _ _ _ Es). unfold startsWith.
        now rewrite E.
      * cbn [append] in Hb. injection Hb as _ Hb. now apply (IH b eq_refl b1).
Qed.

Lemma includes_split (s search : string) :
  includes s search = true ->
  exists before rest, split_first s search = Some (before, rest).
Proof.
  induction s as [|c s IH]; cbn [includes split_first]; unfold startsWith.
  - destruct (strip_prefix search ""); [eauto | discriminate].
  - destruct (strip_prefix search (String c s)); [eauto|]. cbn [orb].
    intros H. destruct (IH H) as (b & r & ->). eauto.
Qed.

Lemma includes_dollar_cons (c : ascii) (s : string) :
  includes (String c s) "$" = Ascii.eqb "$" c || includes s "$".
Proof.
  cbn [includes]. unfold startsWith. cbn [strip_prefix].
  destruct (Ascii.eqb "$" c); reflexivity.
Qed.

(** A replacement text without a dollar sign is inserted as it is. *)
Lemma getSubstitution_plain (matched before rest template : string) :
  includes template "$" = false ->
  getSubstitution matched before rest template = template.
Proof.
  induction template as [|c t IH]; [reflexivity|].
  rewrite includes_dollar_cons. intros H. apply orb_false_iff in H.
  destruct H as [Hc Ht].
  assert (Hstep : getSubstitution matched before rest (String c t)
                  = String c (getSubstitution matched before rest t)).
  { destruct (Ascii.eqb_spec "$"%char c) as [<-|Hne]; [discriminate|].
    destruct c as [[] [] [] [] [] [] [] []]; try reflexivity.
    now destruct Hne. }
  now rewrite Hstep, (IH Ht).
Qed.

Lemma subpage_lines_ok (l : list value) :
  Forall (fun p => absent p = false) l ->
  mapM (fun p =>
          let* title := get p "title" in
          let* id := get p "id" in
          Ok (VStr ("- [" ++ toString title ++ "](page:" ++ toString id ++ ")")))
       l
  = Ok (map (fun p => VStr ("- [" ++ toString (prop p "title") ++ "](page:"
                            ++ toString (prop p "id") ++ ")")) l).
Proof.
  induction 1 as [|p l Hp _ IH]; [reflexivity|].
  cbn [mapM map]. rewrite !(get_present _ _ Hp). cbn [bind]. rewrite IH.
  reflexivity.
Qed.

(** X13. When the converted text holds the placeholder, [getPage] touches its
    first occurrence only, leaving the text before and after it as it is:
    without child pages the placeholder is removed; with child pages, all
    records, it is replaced by the heading "### Subpages" and one
    "- [title](page:id)" line per child, inserted as it is when it holds no
    dollar sign (a dollar pattern in a title is expanded by the
    replacement). *)
Theorem placeholder_first_occurrence (content : string) :
  includes content "{{SUBPAGES}}" = true ->
  exists before rest,
    content = before ++ "{{SUBPAGES}}" ++ rest
    /\ (forall b1 b2, before = b1 ++ b2 -> b2 <> "" ->
          startsWith (b2 ++ "{{SUBPAGES}}" ++ rest) "{{SUBPAGES}}" = false)
    /\ getPage_resolveSubpages content [] = Ok (before ++ rest)
    /\ (forall p ps list,
          Forall (fun p => absent p = false) (p :: ps) ->
          list = String.concat nl
                   (map (fun p => "- [" ++ toString (prop p "title")
                                  ++ "](page:" ++ toString (prop p "id") ++ ")")
                      (p :: ps)) ->
          getPage_resolveSubpages content (p :: ps)
          = Ok (before
                ++ getSubstitution "{{SUBPAGES}}" before rest
                     ("### Subpages" ++ nl ++ list)
                ++ rest)
          /\ (includes list "$" = false ->
              getPage_resolveSubpages content (p :: ps)
              = Ok (before ++ "### Subpages" ++ nl ++ list ++ rest))).
Proof.
  intros Hin. destruct (includes_split _ _ Hin) as (before & rest & Hs).
  exists before, rest.
  assert (Hne : negb (content =? "") = true).
  { destruct content; [discriminate | reflexivity]. }
  split; [now apply split_first_app|].
  split; [now apply (split_first_least _ _ _ _ Hs)|].
  split.
  - unfold getPage_resolveSubpages. rewrite Hne, Hin. cbn [andb List.length Nat.ltb Nat.leb].
    unfold replace. rewrite Hs. reflexivity.
  - intros p ps list Hall ->.
    assert (Hgen : getPage_resolveSubpages content (p :: ps)
                   = Ok (before
                         ++ getSubstitution "{{SUBPAGES}}" before rest
                              ("### Subpages" ++ nl
                               ++ String.concat nl
                                    (map (fun p =>
                                            "- [" ++ toString (prop p "title")
                                            ++ "](page:"
                                            ++ toString (prop p "id") ++ ")")
                                       (p :: ps)))
                         ++ rest)).
    { unfold getPage_resolveSubpages. rewrite Hne, Hin.
      cbn [andb List.length Nat.ltb Nat.leb].
      rewrite (subpage_lines_ok _ Hall). cbn [bind].
      rewrite <- (map_map (fun p => "- [" ++ toString (prop p "title")
                                     ++ "](page:" ++ toString (prop p "id")
                                     ++ ")") VStr), join_strings.
      unfold replace. rewrite Hs. reflexivity. }
    split; [exact Hgen|].
    intros Hd. rewrite Hgen, getSubstitution_plain.
    + now rewrite !append_assoc.
    + change ("### Subpages" ++ nl ++ ?x) with (("### Subpages" ++ nl) ++ x).
      generalize dependent (String.concat nl
                  (map (fun p => "- [" ++ toString (prop p "title")
                                 ++ "](page:" ++ toString (prop p "id") ++ ")")
                     (p :: ps))).
      intros list _ Hd. cbn [append nl].
      repeat (rewrite includes_dollar_cons; cbn [Ascii.eqb Bool.eqb orb]).
      exact Hd.
Qed.

(** X14. What [getPage] returns always carries the content of the page as a
    string, the empty string when the page has no content; the child pages
    appear only when at least one was fetched, and a failed fetch of the
    child pages gives the same result as a page without children. *)
Theorem getPage_content_is_a_string (body : value)
    (fetched : option (list value)) :
  (forall out,
      getPage_result body fetched = Ok out ->
      (exists content, prop (prop out "data") "content" = VStr content)
      /\ (truthy (prop (prop body "data") "content") = false ->
          prop (prop out "data") "content" = VStr "")
      /\ (fetched = None \/ fetched = Some [] ->
          prop (prop out "data") "subpages" = VUndefined)
      /\ prop out "success" = prop body "success")
  /\ getPage_result body None = getPage_result body (Some []).
Proof.
  split; [|reflexivity].
  intros out H. unfold getPage_result in H.
  destruct (get body "data") as [resultData|e] eqn:Eb; cbn [bind] in H;
    [|discriminate].
  destruct (get resultData "content") as [raw|e] eqn:Er; cbn [bind] in H;
    [|discriminate].
  assert (Hdata : resultData = prop body "data")
    by (destruct body; cbn in Eb |- *; congruence).
  assert (Hraw : raw = prop (prop body "data") "content").
  { rewrite <- Hdata. destruct resultData; cbn in Er |- *; congruence. }
  destruct (if truthy raw then convertProseMirrorToMarkdown raw else Ok "")
    as [converted|e] eqn:Ec; cbn [bind] in H; [|discriminate].
  destruct (getPage_resolveSubpages converted _) as [content|e] eqn:Es;
    cbn [bind] in H; [|discriminate].
  destruct (filterPage resultData (VStr content) _) as [data|e] eqn:Ef;
    cbn [bind] in H; [|discriminate].
  injection H as <-. cbn [prop lookup String.eqb Ascii.eqb Bool.eqb].
  destruct (filterPage_ok _ _ _ _ Ef) as (extra & -> & Hextra).
  assert (Hcontent : prop (VObj (map (fun k => (k, prop resultData k)) page_keys
                                 ++ content_field (VStr content) ++ extra)%list)
                       "content" = VStr content) by reflexivity.
  repeat split.
  - eauto.
  - intros Hfalsy. rewrite Hcontent. f_equal.
    rewrite <- Hraw in Hfalsy. rewrite Hfalsy in Ec. injection Ec as <-.
    cbn in Es. now injection Es as <-.
  - intros Hnone.
    assert (extra = [])
      by (destruct Hnone as [->| ->]; exact Hextra).
    subst extra. reflexivity.
Qed.

(** ** Pagination *)

(** X15. Every request of [paginateAll] asks for a page size between 1 and
    100 (the given limit when it is in that range, the nearer bound
    otherwise) and for its page number; a limit or a page of the base
    payload is overridden, and its other keys are sent as they are. *)
Theorem page_request_fields (basePayload : list (string * value))
    (limit page : Z) :
  (1 <= clampLimit limit <= 100)%Z
  /\ ((1 <= limit <= 100)%Z -> clampLimit limit = limit)
  /\ prop (page_request basePayload (clampLimit limit) page) "limit"
     = VNum (clampLimit limit)
  /\ prop (page_request basePayload (clampLimit limit) page) "page"
     = VNum page
  /\ (forall key, key <> "limit" -> key <> "page" ->
        prop (page_request basePayload (clampLimit limit) page) key
        = lookup key basePayload).
Proof.
  unfold clampLimit. repeat split; try lia; try reflexivity.
  intros key Hl Hp. cbn [page_request prop lookup].
  destruct (String.eqb_spec key "limit"); [contradiction|].
  destruct (String.eqb_spec key "page"); [contradiction | reflexivity].
Qed.

Lemma page_hasNextPage_items (data : value) (more : bool) :
  page_hasNextPage data = Ok more -> exists items, page_items data = Ok items.
Proof.
  unfold page_hasNextPage, page_items.
  destruct (get data "data"); cbn [bind]; [eauto | discriminate].
Qed.

(** The loop from page [start] on, over the batches that are left. *)
Lemma paginateAll_loop_collects (post : value -> result value)
    (basePayload : list (string * value)) (clamped : Z)
    (batches : list (list value)) (last : list value) :
  forall (start : nat) (allItems : list value) (fuel : nat),
    (forall i batch,
        nth_error (batches ++ [last])%list i = Some batch ->
        exists data,
          post (page_request basePayload clamped (Z.of_nat (start + i)))
          = Ok data
          /\ page_items data = Ok (VArr batch)
          /\ page_hasNextPage data = Ok (i <? List.length batches)%nat) ->
    (List.length batches < fuel)%nat ->
    paginateAll_loop post basePayload clamped fuel (Z.of_nat start) allItems
    = Some (Ok (allItems ++ List.concat (batches ++ [last]))%list).
Proof.
  induction batches as [|batch batches IH]; intros start allItems fuel H Hfuel.
  - destruct fuel as [|fuel]; [lia|]. cbn [paginateAll_loop].
    destruct (H 0%nat last eq_refl) as (data & Hp & Hi & Hn).
    rewrite Nat.add_0_r in Hp. rewrite Hp. cbn [bind]. rewrite Hi, Hn.
    cbn. now rewrite app_nil_r.
  - destruct fuel as [|fuel]; [lia|]. cbn [paginateAll_loop].
    destruct (H 0%nat batch eq_refl) as (data & Hp & Hi & Hn).
    rewrite Nat.add_0_r in Hp. rewrite Hp. cbn [bind]. rewrite Hi, Hn.
    cbn [bind array_concat List.length Nat.ltb Nat.leb].
    replace (Z.of_nat start + 1)%Z with (Z.of_nat (S start)) by lia.
    rewrite (IH (S start)).
    + cbn [app List.concat]. now rewrite app_assoc.
    + intros i b Hb. destruct (H (S i) b Hb) as (d & Hd1 & Hd2 & Hd3).
      exists d. replace (S start + i)%nat with (start + S i)%nat by lia.
      auto.
    + cbn [List.length] in Hfuel. lia.
Qed.

(** X16. [paginateAll] asks for the pages 1, 2, 3, ... in order until a
    response does not announce a next page, and returns the items of all the
    pages, concatenated in order: after as many requests as there are
    pages. *)
Theorem paginateAll_collects_every_page (post : value -> result value)
    (basePayload : list (string * value)) (limit : Z)
    (batches : list (list value)) (last : list value) (fuel : nat) :
  (forall i batch,
      nth_error (batches ++ [last])%list i = Some batch ->
      exists data,
        post (page_request basePayload (clampLimit limit) (Z.of_nat (i + 1)))
        = Ok data
        /\ page_items data = Ok (VArr batch)
        /\ page_hasNextPage data = Ok (i <? List.length batches)%nat) ->
  (List.length batches < fuel)%nat ->
  paginateAll post basePayload (Some limit) fuel
  = Some (Ok (List.concat (batches ++ [last]))).
Proof.
  intros H Hfuel. unfold paginateAll.
  change 1%Z with (Z.of_nat 1).
  rewrite (paginateAll_loop_collects post basePayload (clampLimit limit)
             batches last 1 [] fuel); [reflexivity| |exact Hfuel].
  intros i batch Hb. destruct (H i batch Hb) as (d & Hd1 & Hd2 & Hd3).
  exists d. replace (1 + i)%nat with (i + 1)%nat by lia. auto.
Qed.

Lemma paginateAll_loop_never_ends (post : value -> result value)
    (basePayload : list (string * value)) (clamped : Z) :
  (forall page, (1 <= page)%Z ->
                exists data,
                  post (page_request basePayload clamped page) = Ok data
                  /\ page_hasNextPage data = Ok true) ->
  forall fuel page allItems,
    (1 <= page)%Z ->
    paginateAll_loop post basePayload clamped fuel page allItems = None.
Proof.
  intros H. induction fuel as [|fuel IH]; intros page allItems Hpage;
    [reflexivity|].
  cbn [paginateAll_loop]. destruct (H page Hpage) as (data & Hp & Hn).
  destruct (page_hasNextPage_items _ _ Hn) as [items Hi].
  rewrite Hp. cbn [bind]. rewrite Hi, Hn. cbn [bind]. apply IH. lia.
Qed.

Lemma paginateAll_loop_fails (post : value -> result value)
    (basePayload : list (string * value)) (clamped : Z)
    (batches : list (list value)) (e : error) :
  forall (start : nat) (allItems : list value) (fuel : nat),
    (forall i batch,
        nth_error batches i = Some batch ->
        exists data,
          post (page_request basePayload clamped (Z.of_nat (start + i)))
          = Ok data
          /\ page_items data = Ok (VArr batch)
          /\ page_hasNextPage data = Ok true) ->
    post (page_request basePayload clamped
            (Z.of_nat (start + List.length batches))) = Throw e ->
    (List.length batches < fuel)%nat ->
    paginateAll_loop post basePayload clamped fuel (Z.of_nat start) allItems
    = Some (Throw e).
Proof.
  induction batches as [|batch batches IH]; intros start allItems fuel H He Hfuel.
  - destruct fuel as [|fuel]; [lia|]. cbn [paginateAll_loop].
    cbn [List.length] in He. rewrite Nat.add_0_r in He. now rewrite He.
  - destruct fuel as [|fuel]; [lia|]. cbn [paginateAll_loop].
    destruct (H 0%nat batch eq_refl) as (data & Hp & Hi & Hn).
    rewrite Nat.add_0_r in Hp. rewrite Hp. cbn [bind]. rewrite Hi, Hn.
    cbn [bind array_concat].
    replace (Z.of_nat start + 1)%Z with (Z.of_nat (S start)) by lia.
    apply IH.
    + intros i b Hb. destruct (H (S i) b Hb) as (d & Hd1 & Hd2 & Hd3).
      exists d. replace (S start + i)%nat with (start + S i)%nat by lia.
      auto.
    + cbn [List.length] in He.
      replace (S start + List.length batches)%nat
        with (start + S (List.length batches))%nat by lia.
      exact He.
    + cbn [List.length] in Hfuel. lia.
Qed.

(** X17. [paginateAll] has no bound of its own: against a server whose every
    response announces a next page it never returns, however many requests
    are made. And it keeps nothing of a run that fails: when a request is
    rejected after any number of pages were read, the call fails with that
    rejection and the items read so far are lost. *)
Theorem paginateAll_has_no_bound (post : value -> result value)
    (basePayload : list (string * value)) (limit : Z) :
  ((forall page, (1 <= page)%Z ->
       exists data,
         post (page_request basePayload (clampLimit limit) page) = Ok data
         /\ page_hasNextPage data = Ok true) ->
   forall fuel, paginateAll post basePayload (Some limit) fuel = None)
  /\ (forall batches e fuel,
        (forall i batch,
            nth_error batches i = Some batch ->
            exists data,
              post (page_request basePayload (clampLimit limit)
                      (Z.of_nat (i + 1))) = Ok data
              /\ page_items data = Ok (VArr batch)
              /\ page_hasNextPage data = Ok true) ->
        post (page_request basePayload (clampLimit limit)
                (Z.of_nat (List.length batches + 1))) = Throw e ->
        (List.length batches < fuel)%nat ->
        paginateAll post basePayload (Some limit) fuel = Some (Throw e)).
Proof.
  unfold paginateAll. split.
  - intros H fuel. apply paginateAll_loop_never_ends; [exact H | lia].
  - intros batches e fuel H He Hfuel. change 1%Z with (Z.of_nat 1).
    apply (paginateAll_loop_fails post basePayload (clampLimit limit)
             batches e 1 [] fuel); [| |exact Hfuel].
    + intros i batch Hb. destruct (H i batch Hb) as (d & Hd1 & Hd2 & Hd3).
      exists d. replace (1 + i)%nat with (i + 1)%nat by lia. auto.
    + replace (1 + List.length batches)%nat
        with (List.length batches + 1)%nat by lia.
      exact He.
Qed.

(** ** Task lists *)

Lemma mapM_index_Forall2 (cb : value -> nat -> result value)
    (l l' : list value) (i : nat) :
  Forall2 (fun x y => forall j, cb x j = Ok y) l l' ->
  mapM_index cb i l = Ok l'.
Proof.
  intros H. revert i. induction H as [|x y l l' Hx _ IH]; intros i;
    [reflexivity|].
  cbn [mapM_index]. rewrite Hx. cbn [bind]. now rewrite IH.
Qed.

Lemma processNode_taskList (node : value) :
  prop node "type" = VStr "taskList" ->
  processNode node
  = (let* items := content_map (fun item _ => processTaskItem item) node in
     Ok (VStr (join nl items))).
Proof. intros Htype. enter_rule Htype. reflexivity. Qed.

Lemma processTaskItem_line (item attrs : value) (parts : list value) :
  get item "attrs" = Ok attrs ->
  children item = Ok parts ->
  processTaskItem item = Ok (VStr (task_line attrs parts)).
Proof.
  intros Ha Hc. rewrite (processTaskItem_rule item attrs parts Ha Hc).
  unfold checkbox_of, task_line. rewrite truthy_orElse_false.
  destruct (truthy (getOpt attrs "checked")); reflexivity.
Qed.

Lemma task_line_one_line (attrs : value) (parts : list value) :
  Forall (fun p => includes (join_element p) nl = false) parts ->
  includes (task_line attrs parts) nl = false.
Proof.
  intros H. unfold task_line, join. rewrite includes_nl_app.
  rewrite includes_nl_concat by (now apply Forall_map).
  destruct (truthy (getOpt attrs "checked")); reflexivity.
Qed.

(** The rendering of a task list whose items render as [rendered] says. *)
Lemma taskList_lines (node : value) (items : list value)
    (rendered : list (value * list value)) :
  prop node "type" = VStr "taskList" ->
  prop node "content" = VArr items ->
  Forall2 (fun item r => get item "attrs" = Ok (fst r)
                         /\ children item = Ok (snd r)) items rendered ->
  processNode node
  = Ok (VStr (String.concat nl
                (map (fun r => task_line (fst r) (snd r)) rendered))).
Proof.
  intros Htype Hcontent Hitems.
  rewrite (processNode_taskList node Htype), content_map_eq.
  rewrite (get_present _ "content" (prop_present _ _ _ Htype)), Hcontent.
  cbn [bind orElse truthy array_map].
  rewrite (mapM_index_Forall2 _ items
             (map VStr (map (fun r => task_line (fst r) (snd r)) rendered))).
  - cbn [bind]. now rewrite join_strings.
  - clear Hcontent.
    induction Hitems as [|item r items rendered [Ha Hc] _ IH]; cbn [map];
      [constructor|].
    constructor; [|exact IH]. intros _. now apply processTaskItem_line.
Qed.

(** C8, as the code has it. A task list renders each of its items through
    [processTaskItem] and joins them with a newline. The line of an item is
    "- [x] " when [attrs.checked] is truthy and "- [ ] " otherwise (also when
    it is absent), followed by its rendered children concatenated with no
    separator. No newline is added between children, so each item is one
    line of the list whenever no rendered child holds a newline; a newline
    inside a child stays. *)
Theorem task_item_rendering (node : value) (items : list value)
    (rendered : list (value * list value)) :
  prop node "type" = VStr "taskList" ->
  prop node "content" = VArr items ->
  Forall2 (fun item r => get item "attrs" = Ok (fst r)
                         /\ children item = Ok (snd r)) items rendered ->
  processNode node
  = Ok (VStr (String.concat nl
                (map (fun r => (if truthy (getOpt (fst r) "checked")
                                then "- [x] " else "- [ ] ")
                               ++ join "" (snd r))
                   rendered)))
  /\ Forall2 (fun item r =>
                processTaskItem item = Ok (VStr (task_line (fst r) (snd r)))
                /\ (absent (getOpt (fst r) "checked") = true ->
                    processTaskItem item
                    = Ok (VStr ("- [ ] " ++ join "" (snd r)))))
       items rendered
  /\ (rendered <> [] ->
      Forall (fun r => Forall (fun p => includes (join_element p) nl = false)
                         (snd r)) rendered ->
      forall s, processNode node = Ok (VStr s) ->
                lines s = map (fun r => task_line (fst r) (snd r)) rendered).
Proof.
  intros Htype Hcontent Hitems.
  pose proof (taskList_lines node items rendered Htype Hcontent Hitems)
    as Hlist.
  split; [exact Hlist|]. split.
  - clear Hcontent Hlist.
    induction Hitems as [|item r items rendered [Ha Hc] _ IH];
      constructor; [|exact IH].
    pose proof (processTaskItem_line item _ _ Ha Hc) as Hline.
    split; [exact Hline|].
    intros Habs. rewrite Hline. unfold task_line.
    destruct (getOpt (fst r) "checked"); cbn in Habs; try discriminate;
      reflexivity.
  - intros Hne Hparts s Hs. rewrite Hlist in Hs.
    assert (s = String.concat nl
                  (map (fun r => task_line (fst r) (snd r)) rendered))
      by congruence.
    subst s. apply lines_concat_nl.
    + destruct rendered; [congruence | discriminate].
    + apply Forall_map. eapply Forall_impl; [|exact Hparts].
      intros r Hr. now apply task_line_one_line.
Qed.

(** C10. A taskItem is rendered by two rules, and its place in the tree
    chooses between them. A task list renders its items through
    [processTaskItem], which joins the rendered children of the item with
    the empty string; anywhere else (under a doc, say) the item is
    dispatched by [processNode], which joins them with a newline. The two
    renderings of one taskItem differ as soon as it has two children. *)
Theorem taskItem_two_renderings (item : value) (parts : list value) :
  prop item "type" = VStr "taskItem" ->
  children item = Ok parts ->
  processTaskItem item
  = Ok (VStr ("- " ++ checkbox_of (prop item "attrs") ++ " " ++ join "" parts))
  /\ processNode item
     = Ok (VStr ("- " ++ checkbox_of (prop item "attrs") ++ " "
                 ++ join nl parts))
  /\ (forall tasks, prop tasks "type" = VStr "taskList" ->
        processNode tasks
        = (let* rendered :=
             content_map (fun child _ => processTaskItem child) tasks in
           Ok (VStr (join nl rendered))))
  /\ processNode (element "taskList" [item]) = processTaskItem item
  /\ processNode (element "doc" [item]) = processNode item
  /\ ((2 <= List.length parts)%nat ->
      processTaskItem item <> processNode item
      /\ processNode (element "taskList" [item])
         <> processNode (element "doc" [item])).
Proof.
  intros Htype Hc.
  pose proof (processTaskItem_rule item _ parts
                (get_present _ "attrs" (prop_present _ _ _ Htype)) Hc) as Ht.
  pose proof (processNode_taskItem item parts Htype Hc) as Hn.
  assert (Hlist : processNode (element "taskList" [item])
                  = processTaskItem item).
  { rewrite (processNode_taskList (element "taskList" [item]) eq_refl).
    change (content_map (fun x (_ : nat) => processTaskItem x)
              (element "taskList" [item]))
      with (mapM_index (fun x (_ : nat) => processTaskItem x) 0 [item]).
    cbn [mapM_index]. rewrite Ht. reflexivity. }
  assert (Hdoc : processNode (element "doc" [item]) = processNode item).
  { rewrite (processNode_eq (element "doc" [item])). unfold processNodeF.
    fold (children (element "doc" [item])). rewrite children_element.
    cbn [mapM_index]. rewrite Hn. reflexivity. }
  assert (Hdiff : (2 <= List.length parts)%nat ->
                  processTaskItem item <> processNode item).
  { intros Hlen. rewrite Ht, Hn. intros E.
    apply (f_equal (fun r => match r with
                             | Ok (VStr s) => String.length s
                             | _ => O
                             end)) in E.
    cbv beta iota in E. unfold join in E.
    destruct parts as [|p parts]; [cbn in Hlen; lia|].
    destruct parts as [|q parts]; [cbn in Hlen; lia|].
    cbn [map] in E. rewrite !length_app, length_concat_nl in E.
    cbn [List.length] in E. lia. }
  split; [exact Ht|]. split; [exact Hn|].
  split; [exact processNode_taskList|]. split; [exact Hlist|].
  split; [exact Hdoc|].
  intros Hlen. split; [now apply Hdiff|].
  rewrite Hlist, Hdoc. now apply Hdiff.
Qed.

End Converter.

(** ** The theorems at sample documents *)

Example text_marks_left_fold_witness :
  let node := marked "t" [mark "bold"; mark "italic"] in
  prop node "type" = VStr "text"
  /\ prop node "text" = VStr "t"
  /\ prop node "marks" = VArr [mark "bold"; mark "italic"]
  /\ Forall (fun m => absent m = false) [mark "bold"; mark "italic"]
  /\ (forall up stn, processNode up stn node = Ok (VStr "***t***")).
Proof.
  cbv zeta.
  assert (Hms : Forall (fun m => absent m = false) [mark "bold"; mark "italic"])
    by (repeat constructor).
  refine (conj eq_refl (conj eq_refl (conj eq_refl (conj Hms _)))).
  intros up stn.
  exact (proj1 (text_marks_left_fold up stn
                  (marked "t" [mark "bold"; mark "italic"]) "t"
                  [mark "bold"; mark "italic"] eq_refl eq_refl eq_refl Hms)).
Defined.



Example taskItem_two_renderings_witness :
  let item := element "taskItem"
                [element "paragraph" [text "a"]; element "paragraph" [text "b"]] in
  prop item "type" = VStr "taskItem"
  /\ (forall up stn,
        children up stn item = Ok [VStr "a"; VStr "b"]
        /\ processTaskItem up stn item = Ok (VStr "- [ ] ab")
        /\ processNode up stn item = Ok (VStr ("- [ ] a" ++ nl ++ "b"))
        /\ processNode up stn (element "taskList" [item])
           = Ok (VStr "- [ ] ab")
        /\ processNode up stn (element "doc" [item])
           = Ok (VStr ("- [ ] a" ++ nl ++ "b"))
        /\ processNode up stn (element "taskList" [item])
           <> processNode up stn (element "doc" [item])).
Proof.
  cbv zeta. refine (conj eq_refl _). intros up stn.
  pose proof (taskItem_two_renderings up stn
                (element "taskItem"
                   [element "paragraph" [text "a"];
                    element "paragraph" [text "b"]])
                [VStr "a"; VStr "b"] eq_refl eq_refl)
    as (Ht & Hn & _ & _ & _ & Hd).
  refine (conj eq_refl (conj Ht (conj Hn (conj eq_refl (conj eq_refl
            (proj2 (Hd _))))))).
  cbn. lia.
Defined.

(** C8, as the specification states it, fails: the first item below is a
    task item whose one paragraph holds a hard break, and its rendering holds
    a newline; the second has a [checked] that is not the boolean true, and
    is rendered as checked. *)
Example task_item_newline_counterexample :
  let item := element "taskItem"
                [element "paragraph"
                   [text "a"; element "hardBreak" []; text "b"]] in
  let numbered := element_with "taskItem" [("checked", VNum 1)]
                    [element "paragraph" [text "a"]] in
  includes ("- [ ] a" ++ nl ++ "b") nl = true
  /\ (forall up stn,
        processTaskItem up stn item = Ok (VStr ("- [ ] a" ++ nl ++ "b"))
        /\ convertProseMirrorToMarkdown up stn
             (element "doc" [element "taskList" [item]])
           = Ok ("- [ ] a" ++ nl ++ "b")
        /\ processTaskItem up stn numbered = Ok (VStr "- [x] a")).
Proof.
  cbv zeta. split; [reflexivity|]. intros up stn. repeat split; reflexivity.
Qed.

Example task_item_rendering_witness :
  let done := element_with "taskItem" [("checked", VBool true)]
                [element "paragraph" [text "Done"]] in
  let two := element "taskItem"
               [element "paragraph" [text "a"]; element "paragraph" [text "b"]] in
  let tasks := element "taskList" [done; two] in
  prop tasks "type" = VStr "taskList"
  /\ prop tasks "content" = VArr [done; two]
  /\ get done "attrs" = Ok (VObj [("checked", VBool true)])
  /\ get two "attrs" = Ok VUndefined
  /\ (forall up stn,
        children up stn done = Ok [VStr "Done"]
        /\ children up stn two = Ok [VStr "a"; VStr "b"]
        /\ processNode up stn tasks
           = Ok (VStr ("- [x] Done" ++ nl ++ "- [ ] ab"))
        /\ lines ("- [x] Done" ++ nl ++ "- [ ] ab")
           = ["- [x] Done"; "- [ ] ab"]
        /\ convertProseMirrorToMarkdown up stn
             (element "doc" [element "taskList" [done]])
           = Ok "- [x] Done").
Proof.
  cbv zeta.
  refine (conj eq_refl (conj eq_refl (conj eq_refl (conj eq_refl _)))).
  intros up stn.
  destruct (task_item_rendering up stn
              (element "taskList"
                 [element_with "taskItem" [("checked", VBool true)]
                    [element "paragraph" [text "Done"]];
                  element "taskItem"
                    [element "paragraph" [text "a"];
                     element "paragraph" [text "b"]]])
              [element_with "taskItem" [("checked", VBool true)]
                 [element "paragraph" [text "Done"]];
               element "taskItem"
                 [element "paragraph" [text "a"];
                  element "paragraph" [text "b"]]]
              [(VObj [("checked", VBool true)], [VStr "Done"]);
               (VUndefined, [VStr "a"; VStr "b"])]
              eq_refl eq_refl) as (Hl & _ & Hlines).
  { repeat constructor. }
  refine (conj eq_refl (conj eq_refl (conj Hl (conj _ eq_refl)))).
  apply Hlines; [discriminate | repeat constructor | exact Hl].
Defined.

(** The item rule at an item of two paragraphs. *)
Example list_item_rendering_witness :
  let item := element "listItem"
                [element "paragraph" [text "A"];
                 element "paragraph" [text "more"]] in
  (forall up stn, children up stn item = Ok [VStr "A"; VStr "more"])
  /\ (forall up stn,
        processListItem up stn item "3."
        = Ok (VStr ("3. A" ++ nl ++ "  more"))).
Proof.
  cbv zeta. refine (conj (fun _ _ => eq_refl) _). intros up stn.
  exact (proj1 (list_item_rendering up stn
                  (element "listItem"
                     [element "paragraph" [text "A"];
                      element "paragraph" [text "more"]])
                  "3." (VStr "A") [VStr "more"] eq_refl)).
Defined.

Example convert_empty_or_trimmed_witness :
  let padded := element "doc" [element "paragraph" [text "  padded "]] in
  absent (prop (VObj [("type", VStr "doc")]) "content") = true
  /\ truthy padded = true
  /\ truthy (prop padded "content") = true
  /\ (forall up stn,
        convertProseMirrorToMarkdown up stn (VObj [("type", VStr "doc")])
        = Ok ""
        /\ convertProseMirrorToMarkdown up stn VNull = Ok ""
        /\ processNode up stn padded = Ok (VStr "  padded ")
        /\ convertProseMirrorToMarkdown up stn padded = Ok "padded"
        /\ exists s leading trailing,
             convertProseMirrorToMarkdown up stn padded = Ok s
             /\ whiteSpace_run leading /\ whiteSpace_run trailing
             /\ "  padded " = leading ++ s ++ trailing).
Proof.
  cbv zeta. refine (conj eq_refl (conj eq_refl (conj eq_refl _))).
  intros up stn.
  refine (conj _ (conj _ (conj eq_refl (conj eq_refl _)))).
  - exact (proj1 (convert_empty_or_trimmed up stn (VObj [("type", VStr "doc")]))
             (or_intror eq_refl)).
  - exact (proj1 (convert_empty_or_trimmed up stn VNull) (or_introl eq_refl)).
  - exact (proj1 (proj2 (convert_empty_or_trimmed up stn
                           (element "doc"
                              [element "paragraph" [text "  padded "]])))
             "  padded " eq_refl eq_refl eq_refl).
Defined.



Example convert_deterministic_witness :
  let tree1 :=
    VObj [("type", VStr "doc");
          ("content",
           VArr [VObj [("type", VStr "heading");
                       ("attrs", VObj [("level", VNum 2)]);
                       ("content", VArr [text "Title"])]])] in
  let tree2 :=
    VObj [("content",
           VArr [VObj [("content", VArr [text "Title"]);
                       ("attrs", VObj [("level", VNum 2)]);
                       ("type", VStr "heading")]]);
          ("type", VStr "doc")] in
  same_tree tree1 tree2
  /\ (forall up stn,
        convertProseMirrorToMarkdown up stn tree1
        = convertProseMirrorToMarkdown up stn tree2).
Proof.
  cbv zeta.
  assert (Hlookup : forall (k1 k2 k3 : string) (v1 v2 v3 w1 w2 w3 : value),
             k1 <> k2 -> k1 <> k3 -> k2 <> k3 ->
             same_tree v1 w1 -> same_tree v2 w2 -> same_tree v3 w3 ->
             forall key,
               same_tree (lookup key [(k1, v1); (k2, v2); (k3, v3)])
                 (lookup key [(k3, w3); (k2, w2); (k1, w1)])).
  { intros k1 k2 k3 v1 v2 v3 w1 w2 w3 N12 N13 N23 H1 H2 H3 key. cbn.
    destruct (String.eqb_spec key k1) as [->|];
      destruct (String.eqb_spec k1 k3), (String.eqb_spec k1 k2);
      try congruence; try assumption.
    destruct (String.eqb_spec key k2) as [->|];
      destruct (String.eqb_spec k2 k3); try congruence; try assumption.
    destruct (String.eqb_spec key k3); [assumption | constructor]. }
  assert (Hsame :
    same_tree
      (VObj [("type", VStr "doc");
             ("content",
              VArr [VObj [("type", VStr "heading");
                          ("attrs", VObj [("level", VNum 2)]);
                          ("content", VArr [text "Title"])]])])
      (VObj [("content",
              VArr [VObj [("content", VArr [text "Title"]);
                          ("attrs", VObj [("level", VNum 2)]);
                          ("type", VStr "heading")]]);
             ("type", VStr "doc")])).
  { constructor. intros key. cbn.
    destruct (String.eqb_spec key "type") as [->|Nt]; [constructor|].
    destruct (String.eqb_spec key "content") as [->|Nc]; [|constructor].
    constructor. constructor; [|constructor].
    constructor. apply Hlookup; try discriminate; apply same_tree_refl. }
  split; [exact Hsame|].
  intros up stn. exact (convert_deterministic up stn _ _ Hsame).
Defined.

Example heading_levels_witness :
  let node := element_with "heading" [("level", VNum 3)] [text "Title"] in
  prop node "type" = VStr "heading"
  /\ (0 < 3 <= 6)%Z
  /\ (forall up stn, children up stn node = Ok [VStr "Title"])
  /\ (forall up stn, processNode up stn node = Ok (VStr "### Title")).
Proof.
  cbv zeta. split; [reflexivity|]. split; [lia|].
  split; [intros up stn; reflexivity|]. intros up stn.
  exact (proj1 (heading_levels up stn
                  (element_with "heading" [("level", VNum 3)] [text "Title"])
                  [VStr "Title"] eq_refl eq_refl)
           3%Z eq_refl ltac:(lia)).
Defined.

Example marks_without_effect_witness :
  let node := marked "plain" [mark "comment"; mark "textStyle"] in
  prop node "type" = VStr "text"
  /\ prop node "text" = VStr "plain"
  /\ (exists ms, prop node "marks" = VArr ms /\ forallb passed_over ms = true)
  /\ (forall up stn, processNode up stn node = Ok (VStr "plain")).
Proof.
  cbv zeta.
  assert (Hms : exists ms,
             prop (marked "plain" [mark "comment"; mark "textStyle"]) "marks"
             = VArr ms
             /\ forallb passed_over ms = true)
    by (eexists; split; reflexivity).
  refine (conj eq_refl (conj eq_refl (conj Hms _))).
  intros up stn.
  exact (marks_without_effect up stn
           (marked "plain" [mark "comment"; mark "textStyle"]) "plain"
           eq_refl eq_refl (or_intror Hms)).
Defined.

Example rules_return_strings_witness :
  let node := element "paragraph" [text "a"] in
  get node "type" = Ok (VStr "paragraph")
  /\ (VStr "paragraph" === "text") = false
  /\ (forall up stn v,
        processNode up stn node = Ok v -> exists s, v = VStr s).
Proof.
  cbv zeta. refine (conj eq_refl (conj eq_refl _)). intros up stn.
  exact (proj1 (rules_return_strings up stn (element "paragraph" [text "a"])
                  (VStr "paragraph") eq_refl eq_refl)).
Defined.

Example callout_quotes_every_line_witness :
  let node :=
    element_with "callout" [("type", VStr "warning")]
      [element "paragraph" [text "a"; element "hardBreak" []; text "b"]] in
  prop node "type" = VStr "callout"
  /\ orElse (getOpt (prop node "attrs") "type") (VStr "info") = VStr "warning"
  /\ includes (toUpperCase_ascii "warning") nl = false
  /\ (forall stn,
        children toUpperCase_ascii stn node = Ok [VStr ("a" ++ nl ++ "b")]
        /\ exists out,
             processNode toUpperCase_ascii stn node = Ok (VStr out)
             /\ lines out = ["> **WARNING**"; "> a"; "> b"]).
Proof.
  cbv zeta. refine (conj eq_refl (conj eq_refl (conj eq_refl _))).
  intros stn. refine (conj eq_refl _).
  destruct (callout_quotes_every_line toUpperCase_ascii stn
              (element_with "callout" [("type", VStr "warning")]
                 [element "paragraph"
                    [text "a"; element "hardBreak" []; text "b"]])
              [VStr ("a" ++ nl ++ "b")] "warning"
              eq_refl eq_refl eq_refl eq_refl) as (out & Hout & Hlines & _).
  exists out. split; [exact Hout | exact Hlines].
Defined.

Example blockquote_single_line_children_witness :
  let node := element "blockquote"
                [element "paragraph" [text "a"];
                 element "paragraph" [text "b"]] in
  prop node "type" = VStr "blockquote"
  /\ (forall up stn, children up stn node = Ok [VStr "a"; VStr "b"])
  /\ (forall up stn,
        processNode up stn node = Ok (VStr ("> a" ++ nl ++ "> b"))).
Proof.
  cbv zeta. refine (conj eq_refl (conj (fun _ _ => eq_refl) _)).
  intros up stn.
  exact (proj1 (blockquote_single_line_children up stn
                  (element "blockquote"
                     [element "paragraph" [text "a"];
                      element "paragraph" [text "b"]])
                  [VStr "a"; VStr "b"] eq_refl eq_refl)).
Defined.


Example record_filters_are_projections_witness :
  let space := VObj [("id", VStr "s1"); ("name", VStr "Docs");
                     ("creatorId", VStr "u1")] in
  absent space = false
  /\ exists s, filterSpace space = Ok s /\ filterSpace s = Ok s.
Proof.
  cbv zeta. refine (conj eq_refl _).
  destruct (proj2 (record_filters_are_projections
                     (VObj [("id", VStr "s1"); ("name", VStr "Docs");
                            ("creatorId", VStr "u1")])) eq_refl)
    as (w & s & g & _ & _ & Hs1 & Hs2 & _).
  exists s. split; [exact Hs1 | exact Hs2].
Defined.

Example filterPage_whitelist_witness :
  let page := VObj [("id", VStr "p1"); ("title", VStr "Home");
                    ("content", VObj [("type", VStr "doc")]);
                    ("creatorId", VStr "u1")] in
  exists out,
    filterPage page (VStr "") (Some [VObj [("id", VStr "c1");
                                           ("title", VStr "Child");
                                           ("icon", VStr "x")]])
    = Ok out
    /\ prop out "id" = VStr "p1"
    /\ prop out "content" = VStr ""
    /\ prop out "creatorId" = VUndefined.
Proof.
  cbv zeta. eexists. split; [reflexivity|].
  pose proof (filterPage_whitelist
                (VObj [("id", VStr "p1"); ("title", VStr "Home");
                       ("content", VObj [("type", VStr "doc")]);
                       ("creatorId", VStr "u1")])
                (VStr "")
                (Some [VObj [("id", VStr "c1"); ("title", VStr "Child");
                             ("icon", VStr "x")]])
                _ eq_refl) as (Hkeys & Hcontent & _ & Hother).
  refine (conj (Hkeys "id" (or_introl eq_refl)) (conj Hcontent _)).
  apply Hother. cbn. intuition discriminate.
Defined.

Example filterHistoryEntry_fields_witness :
  let entry :=
    VObj [("id", VStr "h1");
          ("lastUpdatedBy", VObj [("name", VStr "Ann"); ("email", VStr "a@x")]);
          ("lastUpdatedById", VStr "u7");
          ("contributors",
           VArr [VObj [("id", VStr "u7"); ("name", VStr "Ann")];
                 VObj [("id", VStr "u8"); ("name", VStr "Bob")]])] in
  exists out,
    filterHistoryEntry entry = Ok out
    /\ prop out "contributors" = VArr [VStr "Ann"; VStr "Bob"]
    /\ prop out "lastUpdatedBy" = VStr "Ann".
Proof.
  cbv zeta. eexists. split; [reflexivity|].
  destruct (proj1 (filterHistoryEntry_fields
                     (VObj [("id", VStr "h1");
                            ("lastUpdatedBy",
                             VObj [("name", VStr "Ann"); ("email", VStr "a@x")]);
                            ("lastUpdatedById", VStr "u7");
                            ("contributors",
                             VArr [VObj [("id", VStr "u7"); ("name", VStr "Ann")];
                                   VObj [("id", VStr "u8");
                                         ("name", VStr "Bob")]])]))
              _ eq_refl) as (Hc & _ & _ & Hl).
  exact (conj (Hc _ eq_refl) Hl).
Defined.

Example placeholder_first_occurrence_witness :
  includes "Intro {{SUBPAGES}} and {{SUBPAGES}}" "{{SUBPAGES}}" = true
  /\ getPage_resolveSubpages "Intro {{SUBPAGES}} and {{SUBPAGES}}" []
     = Ok "Intro  and {{SUBPAGES}}"
  /\ exists before rest,
       "Intro {{SUBPAGES}} and {{SUBPAGES}}" = before ++ "{{SUBPAGES}}" ++ rest
       /\ getPage_resolveSubpages "Intro {{SUBPAGES}} and {{SUBPAGES}}" []
          = Ok (before ++ rest).
Proof.
  refine (conj eq_refl (conj eq_refl _)).
  destruct (placeholder_first_occurrence
              "Intro {{SUBPAGES}} and {{SUBPAGES}}" eq_refl)
    as (before & rest & Hsplit & _ & Hnone & _).
  exists before, rest. split; [exact Hsplit | exact Hnone].
Defined.

Example getPage_content_is_a_string_witness :
  let body := VObj [("data", VObj [("id", VStr "p1"); ("title", VStr "Home")]);
                    ("success", VBool true)] in
  truthy (prop (prop body "data") "content") = false
  /\ (forall up stn, exists out,
        getPage_result up stn body None = Ok out
        /\ prop (prop out "data") "content" = VStr ""
        /\ prop (prop out "data") "subpages" = VUndefined).
Proof.
  cbv zeta. refine (conj eq_refl _). intros up stn. eexists.
  split; [reflexivity|].
  destruct (proj1 (getPage_content_is_a_string up stn
                     (VObj [("data", VObj [("id", VStr "p1");
                                           ("title", VStr "Home")]);
                            ("success", VBool true)]) None)
              _ eq_refl) as (_ & Hc & Hs & _).
  exact (conj (Hc eq_refl) (Hs (or_introl eq_refl))).
Defined.
Example paginateAll_collects_every_page_witness :
  let response (items : list value) (more : bool) :=
    VObj [("data", VObj [("items", VArr items);
                         ("meta", VObj [("hasNextPage", VBool more)])])] in
  let post (request : value) :=
    match prop request "page" with
    | VNum 1 => Ok (response [VStr "a"; VStr "b"] true)
    | VNum 2 => Ok (response [VStr "c"] false)
    | _ => Throw TypeError
    end in
  (forall i batch,
      nth_error ([[VStr "a"; VStr "b"]] ++ [[VStr "c"]])%list i = Some batch ->
      exists data,
        post (page_request [] (clampLimit 500) (Z.of_nat (i + 1))) = Ok data
        /\ page_items data = Ok (VArr batch)
        /\ page_hasNextPage data = Ok (i <? 1)%nat)
  /\ paginateAll post [] (Some 500%Z) 2 = Some (Ok [VStr "a"; VStr "b"; VStr "c"]).
Proof.
  cbv zeta.
  assert (H : forall i batch,
             nth_error ([[VStr "a"; VStr "b"]] ++ [[VStr "c"]])%list i
             = Some batch ->
             exists data,
               (fun request : value =>
                  match prop request "page" with
                  | VNum 1 =>
                      Ok (VObj [("data",
                                 VObj [("items", VArr [VStr "a"; VStr "b"]);
                                       ("meta",
                                        VObj [("hasNextPage", VBool true)])])])
                  | VNum 2 =>
                      Ok (VObj [("data",
                                 VObj [("items", VArr [VStr "c"]);
                                       ("meta",
                                        VObj [("hasNextPage", VBool false)])])])
                  | _ => Throw TypeError
                  end)
                 (page_request [] (clampLimit 500) (Z.of_nat (i + 1)))
               = Ok data
               /\ page_items data = Ok (VArr batch)
               /\ page_hasNextPage data = Ok (i <? 1)%nat).
  { intros i batch Hb. destruct i as [|[|i]]; cbn in Hb.
    - injection Hb as <-. eexists. repeat split.
    - injection Hb as <-. eexists. repeat split.
    - destruct i; discriminate. }
  split; [exact H|].
  exact (paginateAll_collects_every_page _ [] 500%Z
           [[VStr "a"; VStr "b"]] [VStr "c"] 2 H (le_n 2)).
Defined.

Example paginateAll_has_no_bound_witness :
  let post (request : value) : result value :=
    Ok (VObj [("items", VArr [VStr "again"]);
              ("meta", VObj [("hasNextPage", VBool true)])]) in
  (forall page, (1 <= page)%Z ->
                exists data,
                  post (page_request [] (clampLimit 10) page) = Ok data
                  /\ page_hasNextPage data = Ok true)
  /\ (forall fuel, paginateAll post [] (Some 10%Z) fuel = None).
Proof.
  cbv zeta.
  assert (H : forall page, (1 <= page)%Z ->
                exists data,
                  (fun _ : value =>
                     Ok (VObj [("items", VArr [VStr "again"]);
                               ("meta", VObj [("hasNextPage", VBool true)])]))
                    (page_request [] (clampLimit 10) page) = Ok data
                  /\ page_hasNextPage data = Ok true)
    by (intros page _; eexists; split; reflexivity).
  split; [exact H|].
  exact (proj1 (paginateAll_has_no_bound _ [] 10%Z) H).
Defined.
